(** * OneShare signaling server: a shallow embedding of [src/index.ts] and
      [src/models/ShareRoom.ts], and the properties of its handlers.

    The server keeps two kinds of state: the [sharerooms] collection in
    MongoDB (one [ShareRoom] document per room) and the Socket.io transport
    (the connected sockets and their rooms).  Every handler of
    [io.on('connection', ...)] is embedded as a function in a small
    state-and-exception monad over that state; what a handler emits is
    collected as a list of deliveries, one per receiving socket.  Logging
    ([console.log], [console.error]) is left out. *)

From Stdlib Require Import ZArith QArith String Ascii List Bool Lia.
From stdpp Require Import base tactics option list gmap strings.

Local Open Scope string_scope.
Local Open Scope list_scope.

(** ** JavaScript values

    Event payloads come from the client and can have any shape.  Numbers are
    the finite ones, as rationals.  An object is the list of its properties,
    each name once; a lookup takes the first binding of the name. *)

#[local] Set Warnings "-register-all,-clear-no-such-hyp".

Inductive JsValue : Type :=
| JUndefined
| JNull
| JBool (b : bool)
| JNum (q : Q)
| JStr (s : string)
| JArr (items : list JsValue)
| JObj (fields : list (string * JsValue)).

Inductive JsError : Type :=
| TypeError          (* property read on undefined or null *)
| ValidationError    (* Mongoose: the document does not fit its schema *)
| CastError          (* Mongoose: a value of a filter cannot be converted *)
| DuplicateKeyError  (* MongoDB: a unique index is violated *)
| StoreError.        (* MongoDB: the operation could not be carried out *)

(** [!v] is [negb (truthy v)]. *)
Definition truthy (v : JsValue) : bool :=
  match v with
  | JUndefined | JNull => false
  | JBool b => b
  | JNum q => negb (Qeq_bool q 0)
  | JStr s => negb (String.eqb s "")
  | JArr _ | JObj _ => true
  end.

Definition isArray (v : JsValue) : bool :=
  match v with JArr _ => true | _ => false end.

Definition lookup_field (k : string) (fields : list (string * JsValue)) : JsValue :=
  match List.find (fun kv => String.eqb (fst kv) k) fields with
  | Some kv => snd kv
  | None => JUndefined
  end.

(** [v.k] for the property names the handlers read ([targetSocketId],
    [offer], [answer], [candidate], and the fields of a file record): the
    read throws on [undefined] and [null], and is [undefined] on a value that
    has no such property. *)
Definition get_prop (v : JsValue) (k : string) : JsError + JsValue :=
  match v with
  | JUndefined | JNull => inl TypeError
  | JObj fields => inr (lookup_field k fields)
  | _ => inr JUndefined
  end.

(** ** The data model of [models/ShareRoom.ts]

    An element of [fileMetadata] is a file record, or [null] ([None]): the
    library keeps a [null] element of the array as it is. *)

Record FileMetadata : Type := mkFileMetadata {
  originalName : string;
  fileSize : Q;
  mimeType : string
}.

Record ShareRoom : Type := mkShareRoom {
  shareId : string;
  senderSocketId : string;
  receiverSocketIds : list string;
  fileMetadata : list (option FileMetadata);
  isWaiting : bool;
  deletionKey : string;
  createdAt : N
}.

(** ** The rooms of the transport

    The adapter keeps the rooms in a JavaScript [Map], whose keys can be any
    value a handler passes.  Strings, numbers, booleans, [null] and
    [undefined] are the same key whenever they are the same value.  An object
    or an array is a key of its own: the value of another message is another
    object, so the room it names holds no other socket than the one that has
    just joined it with that very value, and no later event names it.  Such
    rooms are left out. *)

Inductive RoomKey : Type :=
| KStr (s : string)
| KNum (n : Z) (d : positive)
| KBool (b : bool)
| KNull
| KUndefined.

#[global] Instance RoomKey_eq_dec : EqDecision RoomKey.
Proof. solve_decision. Defined.

#[global] Instance RoomKey_countable : Countable RoomKey.
Proof.
  refine (inj_countable'
    (fun k => match k with
              | KStr s => inl s
              | KNum n d => inr (inl (n, d))
              | KBool b => inr (inr (inl b))
              | KNull => inr (inr (inr true))
              | KUndefined => inr (inr (inr false))
              end)
    (fun x => match x with
              | inl s => KStr s
              | inr (inl (n, d)) => KNum n d
              | inr (inr (inl b)) => KBool b
              | inr (inr (inr true)) => KNull
              | inr (inr (inr false)) => KUndefined
              end) _).
  by intros [].
Defined.

Definition room_key (v : JsValue) : option RoomKey :=
  match v with
  | JStr s => Some (KStr s)
  | JNum q => Some (KNum (Qnum (Qred q)) (Qden (Qred q)))
  | JBool b => Some (KBool b)
  | JNull => Some KNull
  | JUndefined => Some KUndefined
  | JArr _ | JObj _ => None
  end.

(** One event as it reaches one socket. *)
Record Delivery : Type := mkDelivery {
  dest : string;
  event : string;
  args : list JsValue
}.

(** ** The state of the process

    [collection] is the [sharerooms] collection in insertion order;
    [mongoUp] tells whether the store answers (when it does not, every store
    operation throws); [connected] are the sockets of the namespace;
    [rooms] is the adapter's map from a room to its sockets, a JavaScript
    [Set] kept as a duplicate-free list in insertion order; [entropy] is the
    pool of random bytes the identifier generator reads. *)

Record World : Type := mkWorld {
  collection : list ShareRoom;
  mongoUp : bool;
  connected : list string;
  rooms : gmap RoomKey (list string);
  entropy : nat -> N
}.

Definition initial (up : bool) (pool : nat -> N) : World :=
  {| collection := []; mongoUp := up; connected := []; rooms := ∅; entropy := pool |}.

Definition set_collection (c : list ShareRoom) (w : World) : World :=
  {| collection := c; mongoUp := mongoUp w; connected := connected w;
     rooms := rooms w; entropy := entropy w |}.

Definition set_rooms (r : gmap RoomKey (list string)) (w : World) : World :=
  {| collection := collection w; mongoUp := mongoUp w; connected := connected w;
     rooms := r; entropy := entropy w |}.

Definition set_connected (c : list string) (w : World) : World :=
  {| collection := collection w; mongoUp := mongoUp w; connected := c;
     rooms := rooms w; entropy := entropy w |}.

Definition set_entropy (e : nat -> N) (w : World) : World :=
  {| collection := collection w; mongoUp := mongoUp w; connected := connected w;
     rooms := rooms w; entropy := e |}.

(** The sockets of a room; a room that is not in the map has none. *)
Definition key_members (w : World) (k : RoomKey) : list string :=
  default [] (rooms w !! k).

(** The sockets of the room named by a string, as the share ids and the
    socket ids are. *)
Definition members (w : World) (room : string) : list string :=
  default [] (rooms w !! KStr room).

(** [Set.prototype.add]. *)
Definition set_add (x : string) (l : list string) : list string :=
  if decide (x ∈ l) then l else l ++ [x].

(** ** The handler monad: state, emitted events, exceptions

    A computation runs on the world and the deliveries made so far, and
    either returns or throws; its effects up to a throw stay. *)

Definition St : Type := World * list Delivery.
Definition M (A : Type) : Type := St -> (JsError + A) * St.

Definition ret {A} (a : A) : M A := fun s => (inr a, s).
Definition throw {A} (e : JsError) : M A := fun s => (inl e, s).
Definition bind {A B} (m : M A) (k : A -> M B) : M B :=
  fun s => match m s with
           | (inr a, s') => k a s'
           | (inl e, s') => (inl e, s')
           end.
Definition try_catch (body : M unit) (handler : JsError -> M unit) : M unit :=
  fun s => match body s with
           | (inr a, s') => (inr a, s')
           | (inl e, s') => handler e s'
           end.
Definition lift {A} (r : JsError + A) : M A :=
  match r with inl e => throw e | inr a => ret a end.
Definition get_world : M World := fun s => (inr (fst s), s).
Definition modify (f : World -> World) : M unit := fun s => (inr tt, (f (fst s), snd s)).

Declare Scope handler_scope.
Delimit Scope handler_scope with handler.
Notation "x <- m ;; k" := (bind m (fun x => k))
  (at level 100, m at next level, right associativity) : handler_scope.
Notation "m ;; k" := (bind m (fun _ => k))
  (at level 100, right associativity) : handler_scope.
Local Open Scope handler_scope.

(** ** Socket.io *)

Definition send (recipients : list string) (ev : string) (a : list JsValue) : M unit :=
  fun s => (inr tt, (fst s, snd s ++ ((fun r => mkDelivery r ev a) <$> recipients))).

(** [socket.emit(ev, ...a)] *)
Definition socket_emit (sock ev : string) (a : list JsValue) : M unit :=
  send [sock] ev a.

(** The sockets an operator on rooms addresses ([io.to(target)],
    [io.in(target)], [socket.to(target)]).  The operator takes a room or an
    array of rooms; the sockets of several rooms are visited once each; an
    operator with no room at all addresses the whole namespace. *)
Definition room_key_members (w : World) (v : JsValue) : list string :=
  match room_key v with Some k => key_members w k | None => [] end.

Definition addressed (w : World) (target : JsValue) : list string :=
  match target with
  | JArr [] => connected w
  | JArr keys => List.fold_left (fun acc k => List.fold_left (fun a x => set_add x a) (room_key_members w k) acc) keys []
  | _ => room_key_members w target
  end.

(** [socket.join(rooms)]: a room, or an array of rooms.  [joined_key] puts
    the socket into one room, [joined] into the room named by a string. *)
Definition joined_key (sock : string) (k : RoomKey) (w : World) : World :=
  set_rooms (<[k := set_add sock (key_members w k)]> (rooms w)) w.

Definition joined (sock room : string) (w : World) : World :=
  set_rooms (<[KStr room := set_add sock (members w room)]> (rooms w)) w.

Definition room_list (v : JsValue) : list JsValue :=
  match v with JArr keys => keys | _ => [v] end.

Definition joined_all (sock : string) (v : JsValue) (w : World) : World :=
  List.fold_left (fun w' key => match room_key key with
                                | Some k => joined_key sock k w'
                                | None => w'
                                end) (room_list v) w.

Definition socket_join (sock : string) (v : JsValue) : M unit :=
  modify (joined_all sock v).

(** [io.in(rooms).allSockets()] *)
Definition allSockets (v : JsValue) : M (list string) :=
  w <- get_world ;; ret (addressed w v).

(** [socket.to(rooms).emit(ev, ...a)]: the rooms without the socket itself. *)
Definition socket_to_emit (sock : string) (v : JsValue) (ev : string) (a : list JsValue) : M unit :=
  w <- get_world ;; send (filter (λ x, x ≠ sock) (addressed w v)) ev a.

(** [socket.broadcast.emit(ev, ...a)]: every socket of the namespace but
    the socket itself. *)
Definition socket_broadcast_emit (sock ev : string) (a : list JsValue) : M unit :=
  w <- get_world ;; send (filter (λ x, x ≠ sock) (connected w)) ev a.

(** [io.to(target).emit(ev, ...a)] *)
Definition io_to_emit (target : JsValue) (ev : string) (a : list JsValue) : M unit :=
  w <- get_world ;; send (addressed w target) ev a.

(** ** The identifier generator *)

(** Modelled from the spec: the generation alphabet.  [nanoid] is imported
    from a package whose code is not among the sources; the symbols are the
    sixty-four of its URL-safe alphabet. *)
Definition urlAlphabet : string :=
  "useandom-26T198340PX75pxJACKVERYMINDBUSHWOLF_GQZbfghjklqvwyzrict".

(** Modelled from the spec: a symbol is chosen by the low six bits of a byte
    of the random pool. *)
Definition symbol (byte : N) : ascii :=
  default "u"%char (String.get (N.to_nat (N.land byte 63)) urlAlphabet).

(** Modelled from the spec: an identifier of [size] symbols, from the bytes
    [from], [from + 1], ... of the pool. *)
Fixpoint nanoid_chars (size : nat) (pool : nat -> N) (from : nat) : string :=
  match size with
  | O => ""
  | S n => String (symbol (pool from)) (nanoid_chars n pool (S from))
  end.

(** Modelled from the spec: [nanoid(size)] returns an identifier of a fixed
    length from the next [size] bytes of the pool, and consumes them. *)
Definition nanoid (size : nat) : M string :=
  w <- get_world ;;
  modify (set_entropy (fun i => entropy w (size + i)%nat)) ;;
  ret (nanoid_chars size (entropy w) 0).

(** ** MongoDB through Mongoose

    Every operation on the collection throws when the store does not
    answer.  An operation on one document takes the first document of the
    collection that its filter selects.  Under the unique index a filter on a
    share id selects one document at most; which of several documents the
    store takes for a filter that a payload of [join-room] other than a
    string is read as is its own choice, and no property below depends on
    it. *)

Definition store {A} (op : World -> (JsError + A) * World) : M A :=
  fun s => if mongoUp (fst s)
           then (fst (op (fst s)), (snd (op (fst s)), snd s))
           else (inl StoreError, s).

Fixpoint update_first (p : ShareRoom -> bool) (f : ShareRoom -> ShareRoom)
    (c : list ShareRoom) : list ShareRoom :=
  match c with
  | [] => []
  | d :: c' => if p d then f d :: c' else d :: update_first p f c'
  end.

Fixpoint remove_first (p : ShareRoom -> bool) (c : list ShareRoom) : list ShareRoom :=
  match c with
  | [] => []
  | d :: c' => if p d then c' else d :: remove_first p c'
  end.

(** [ShareRoom.findOne(filter)] *)
Definition findOne (p : ShareRoom -> bool) : M (option ShareRoom) :=
  store (fun w => (inr (List.find p (collection w)), w)).

(** [ShareRoom.updateOne(filter, update)] *)
Definition updateOne (p : ShareRoom -> bool) (f : ShareRoom -> ShareRoom) : M unit :=
  store (fun w => (inr tt, set_collection (update_first p f (collection w)) w)).

(** [ShareRoom.findOneAndDelete(filter)] *)
Definition findOneAndDelete (p : ShareRoom -> bool) : M (option ShareRoom) :=
  store (fun w => (inr (List.find p (collection w)),
                   set_collection (remove_first p (collection w)) w)).

(** [ShareRoom.updateMany(filter, update)] *)
Definition updateMany (p : ShareRoom -> bool) (f : ShareRoom -> ShareRoom) : M unit :=
  store (fun w => (inr tt,
                   set_collection ((fun d => if p d then f d else d) <$> collection w) w)).

(** [{ $push: { receiverSocketIds: sock } }] and
    [{ $pull: { receiverSocketIds: sock } }] *)
Definition push_receiver (sock : string) (d : ShareRoom) : ShareRoom :=
  {| shareId := shareId d; senderSocketId := senderSocketId d;
     receiverSocketIds := receiverSocketIds d ++ [sock];
     fileMetadata := fileMetadata d; isWaiting := isWaiting d;
     deletionKey := deletionKey d; createdAt := createdAt d |}.

Definition pull_receiver (sock : string) (d : ShareRoom) : ShareRoom :=
  {| shareId := shareId d; senderSocketId := senderSocketId d;
     receiverSocketIds := filter (λ x, x ≠ sock) (receiverSocketIds d);
     fileMetadata := fileMetadata d; isWaiting := isWaiting d;
     deletionKey := deletionKey d; createdAt := createdAt d |}.

(** The filters of the queries.  [{ shareId: v, isWaiting: true }] and
    [{ shareId: v }], for the share ids [p] that the value [v] selects: *)
Definition open_matching (p : string -> bool) (d : ShareRoom) : bool :=
  p (shareId d) && Bool.eqb (isWaiting d) true.

Definition matching (p : string -> bool) (d : ShareRoom) : bool :=
  p (shareId d).

(** the same two filters when [v] is the string [sid], which selects the
    share id equal to it: *)
Definition open_room (sid : string) (d : ShareRoom) : bool :=
  String.eqb (shareId d) sid && Bool.eqb (isWaiting d) true.

Definition has_shareId (sid : string) (d : ShareRoom) : bool :=
  String.eqb (shareId d) sid.

(** [{ senderSocketId: sock }] and [{ receiverSocketIds: sock }] (an array
    path matches when the array contains the value): *)

Definition sent_by (sock : string) (d : ShareRoom) : bool :=
  String.eqb (senderSocketId d) sock.

Definition lists_receiver (sock : string) (d : ShareRoom) : bool :=
  bool_decide (sock ∈ receiverSocketIds d).

(** The unique indexes on [shareId] and [deletionKey]. *)
Definition violates_unique (d : ShareRoom) (c : list ShareRoom) : bool :=
  existsb (fun d' => String.eqb (shareId d') (shareId d)
                     || String.eqb (deletionKey d') (deletionKey d)) c.

Definition nonempty (s : string) : bool := negb (String.eqb s "").

Section Server.

(** The conversions Mongoose applies to a value stored at a [String] or a
    [Number] path; [None] when the value is absent or cannot be converted.
    They belong to the library and are taken as given. *)
Variable castString : JsValue -> option string.
Variable castNumber : JsValue -> option Q.

(** What Mongoose makes of an element of the array of files that is neither
    an object nor [null]: [None] when the document does not pass validation
    with it, otherwise what is stored.  Taken as given too. *)
Variable castElement : JsValue -> option (option FileMetadata).

(** What Mongoose makes of a value that is not a string when it is given for
    [shareId] in a filter: [None] when the value cannot be converted and the
    query throws, otherwise the share ids the filter selects (an object is
    read as query operators, an array as a choice of values).  Taken as given
    too. *)
Variable castFilter : JsValue -> option (string -> bool).

(** The share ids that [{ shareId: v }] selects. *)
Definition cast_shareId (v : JsValue) : option (string -> bool) :=
  match v with
  | JStr sid => Some (fun id => String.eqb id sid)
  | _ => castFilter v
  end.

Definition cast_filter (v : JsValue) : M (string -> bool) :=
  match cast_shareId v with
  | Some p => ret p
  | None => throw CastError
  end.

(** [FileMetadataSchema] on one element of the array.  An object has three
    required paths, and a required string is not empty.  A [null] element is
    kept as it is and is not validated.  [None] stands for an element with
    which the document does not pass validation. *)
Definition cast_FileMetadata (v : JsValue) : option (option FileMetadata) :=
  match v with
  | JObj fields =>
      match castString (lookup_field "originalName" fields),
            castNumber (lookup_field "fileSize" fields),
            castString (lookup_field "mimeType" fields) with
      | Some name, Some size, Some mime =>
          if nonempty name && nonempty mime
          then Some (Some (mkFileMetadata name size mime))
          else None
      | _, _, _ => None
      end
  | JNull => Some None
  | _ => castElement v
  end.

(** [new ShareRoom({...})] with the defaults of [ShareRoomSchema]; [None]
    stands for a document that will not pass validation. *)
Definition new_ShareRoom (sid sender key : string) (fm : JsValue) (now : N) : option ShareRoom :=
  match fm with
  | JArr items =>
      match mapM cast_FileMetadata items with
      | Some files =>
          if nonempty sid && nonempty sender && nonempty key
          then Some {| shareId := sid; senderSocketId := sender; receiverSocketIds := [];
                       fileMetadata := files; isWaiting := true; deletionKey := key;
                       createdAt := now |}
          else None
      | None => None
      end
  | _ => None
  end.

(** [doc.save()]: validation, then the insertion under the unique indexes. *)
Definition save (doc : option ShareRoom) : M unit :=
  match doc with
  | None => throw ValidationError
  | Some d =>
      store (fun w => if violates_unique d (collection w)
                      then (inl DuplicateKeyError, w)
                      else (inr tt, set_collection (collection w ++ [d]) w))
  end.

Definition length_is_zero (v : JsValue) : bool :=
  match v with
  | JArr [] => true
  | JStr s => String.eqb s ""
  | _ => false
  end.

(** The runtime validation of the payload of [create-room]:
    [!fileMetadata || !Array.isArray(fileMetadata) || fileMetadata.length === 0] *)
Definition invalid_payload (payload : JsValue) : bool :=
  negb (truthy payload) || negb (isArray payload) || length_is_zero payload.

Definition FileMetadata_toJs (file : option FileMetadata) : JsValue :=
  match file with
  | Some f => JObj [("originalName", JStr (originalName f));
                    ("fileSize", JNum (fileSize f));
                    ("mimeType", JStr (mimeType f))]
  | None => JNull
  end.

(** ** The handlers of [io.on('connection', ...)] *)

(** [socket.on('create-room', ...)] *)
Definition create_room (sock : string) (now : N) (payload : JsValue) : M unit :=
  try_catch
    (if invalid_payload payload
     then socket_emit sock "create-room-error" [JStr "Invalid file metadata provided."]
     else
       sid <- nanoid 6 ;;
       key <- nanoid 10 ;;
       save (new_ShareRoom sid sock key payload now) ;;
       socket_join sock (JStr sid) ;;
       socket_emit sock "room-created"
         [JObj [("shareId", JStr sid); ("deletionKey", JStr key)]])
    (fun _ => socket_emit sock "create-room-error" [JStr "Failed to create room on server."]).

(** [socket.on('join-room', ...)].  The payload is meant to be a share id;
    whatever the client sent goes into the two filters, into [socket.join],
    [io.in] and [socket.to] as it is. *)
Definition join_room (sock : string) (shareId : JsValue) : M unit :=
  try_catch
    (selected <- cast_filter shareId ;;
     room <- findOne (open_matching selected) ;;
     match room with
     | None =>
         socket_emit sock "join-room-error" [JStr "Room not found or is no longer available!"]
     | Some r =>
         socket_join sock shareId ;;
         updateOne (matching selected) (push_receiver sock) ;;
         allSocketIdsInRoom <- allSockets shareId ;;
         let otherPeerSocketIds := filter (λ x, x ≠ sock) allSocketIdsInRoom in
         socket_emit sock "join-success"
           [JObj [("fileMetadata", JArr (FileMetadata_toJs <$> fileMetadata r));
                  ("otherPeerSocketIds", JArr (JStr <$> otherPeerSocketIds))]] ;;
         socket_to_emit sock shareId "new-peer-joined" [JObj [("peerSocketId", JStr sock)]]
     end)
    (fun _ => socket_emit sock "join-room-error" [JStr "An internal server error occurred."]).

(** The three relays differ in the name of the payload property and of the
    forwarded event only. *)
Definition relay (field ev : string) (sock : string) (data : JsValue) : M unit :=
  target <- lift (get_prop data "targetSocketId") ;;
  if negb (truthy target) then ret tt
  else
    body <- lift (get_prop data field) ;;
    io_to_emit target ev [JObj [(field, body); ("senderSocketId", JStr sock)]].

(** [socket.on('webrtc-offer', ...)] *)
Definition webrtc_offer : string -> JsValue -> M unit :=
  relay "offer" "webrtc-offer-received".

(** [socket.on('webrtc-answer', ...)] *)
Definition webrtc_answer : string -> JsValue -> M unit :=
  relay "answer" "webrtc-answer-received".

(** [socket.on('webrtc-ice-candidate', ...)] *)
Definition webrtc_ice_candidate : string -> JsValue -> M unit :=
  relay "candidate" "webrtc-ice-candidate-received".

(** [socket.on('disconnect', ...)] *)
Definition on_disconnect (sock : string) : M unit :=
  try_catch
    (roomAsSender <- findOneAndDelete (sent_by sock) ;;
     match roomAsSender with
     | Some room => io_to_emit (JStr (shareId room)) "room-closed-by-sender" []
     | None =>
         socket_broadcast_emit sock "peer-left" [JObj [("peerSocketId", JStr sock)]] ;;
         updateMany (lists_receiver sock) (pull_receiver sock)
     end)
    (fun _ => ret tt).

(** ** The transport around the handlers

    A new socket is in the room named by its own id.  A socket that closes has
    left every room and the namespace by the time its [disconnect] handler
    runs. *)

Definition connect (sock : string) (w : World) : World :=
  joined sock sock (set_connected (set_add sock (connected w)) w).

Definition leave_all (sock : string) (w : World) : World :=
  set_rooms (filter (λ x, x ≠ sock) <$> rooms w)
    (set_connected (filter (λ x, x ≠ sock) (connected w)) w).

Inductive Event : Type :=
| Connect (sock : string)
| CreateRoom (sock : string) (now : N) (payload : JsValue)
| JoinRoom (sock : string) (shareId : JsValue)
| WebrtcOffer (sock : string) (data : JsValue)
| WebrtcAnswer (sock : string) (data : JsValue)
| WebrtcIceCandidate (sock : string) (data : JsValue)
| Disconnect (sock : string).

(** A handler that throws is not caught by anything: the exception is
    uncaught and ends the process. *)
Inductive Outcome : Type :=
| Running (w : World) (out : list Delivery)
| Crashed (e : JsError) (w : World) (out : list Delivery).

Definition run_handler (h : M unit) (w : World) : Outcome :=
  match h (w, []) with
  | (inr _, (w', out)) => Running w' out
  | (inl e, (w', out)) => Crashed e w' out
  end.

Definition step (w : World) (e : Event) : Outcome :=
  match e with
  | Connect sock => Running (connect sock w) []
  | CreateRoom sock now payload => run_handler (create_room sock now payload) w
  | JoinRoom sock shareId => run_handler (join_room sock shareId) w
  | WebrtcOffer sock data => run_handler (webrtc_offer sock data) w
  | WebrtcAnswer sock data => run_handler (webrtc_answer sock data) w
  | WebrtcIceCandidate sock data => run_handler (webrtc_ice_candidate sock data) w
  | Disconnect sock => run_handler (on_disconnect sock) (leave_all sock w)
  end.

Fixpoint run (w : World) (es : list Event) : Outcome :=
  match es with
  | [] => Running w []
  | e :: es' =>
      match step w e with
      | Running w' out =>
          match run w' es' with
          | Running w'' out' => Running w'' (out ++ out')
          | Crashed err w'' out' => Crashed err w'' (out ++ out')
          end
      | Crashed err w' out => Crashed err w' out
      end
  end.

End Server.

(** Conversions for the examples.  They convert the values that already
    have the type of the path and no other (the library converts more, a
    string of digits to a number for one), refuse every element of the array
    of files that is neither an object nor [null], and read two filter
    values: an array selects the share ids that are among its strings, and
    the operator [$ne] those that differ from its string. *)
Definition castString_typed (v : JsValue) : option string :=
  match v with JStr s => Some s | _ => None end.

Definition castNumber_typed (v : JsValue) : option Q :=
  match v with JNum q => Some q | _ => None end.

Definition castElement_typed (v : JsValue) : option (option FileMetadata) :=
  None.

Definition castFilter_typed (v : JsValue) : option (string -> bool) :=
  match v with
  | JArr items =>
      Some (fun id => existsb (fun item => match item with
                                           | JStr s => String.eqb id s
                                           | _ => false
                                           end) items)
  | JObj [("$ne", JStr s)] => Some (fun id => negb (String.eqb id s))
  | _ => None
  end.

(** ** The start of the process

    The two variables of the environment that decide the start, and
    [connectDB] followed by [httpServer.listen].  A variable of the
    environment is a string or is not set.  The effects are recorded in order;
    [mongoose.connect] succeeds or throws, as [connects] tells. *)

Record Env : Type := mkEnv {
  PORT : option string;
  MONGODB_URI : option string
}.

(** [process.env.PORT || 3000] *)
Definition port (env : Env) : string + Z :=
  match PORT env with
  | Some p => if nonempty p then inl p else inr 3000%Z
  | None => inr 3000%Z
  end.

Inductive Action : Type :=
| MongooseConnect (uri : string)
| ProcessExit (code : Z)
| HttpListen (on : string + Z).

(** [connectDB()]: its effects, and whether its promise resolves. *)
Definition connectDB (env : Env) (connects : string -> bool) : list Action * bool :=
  match MONGODB_URI env with
  | Some uri =>
      if nonempty uri
      then if connects uri
           then ([MongooseConnect uri], true)
           else ([MongooseConnect uri; ProcessExit 1], false)
      else ([ProcessExit 1], false)
  | None => ([ProcessExit 1], false)
  end.

(** [connectDB().then(() => httpServer.listen(port, ...))] *)
Definition main (env : Env) (connects : string -> bool) : list Action :=
  if snd (connectDB env connects)
  then fst (connectDB env connects) ++ [HttpListen (port env)]
  else fst (connectDB env connects).

(** * The vocabulary of the properties *)

(** ** The three relay kinds *)

Inductive RelayKind : Type := Offer | Answer | IceCandidate.

Definition relay_event (k : RelayKind) (sock : string) (data : JsValue) : Event :=
  match k with
  | Offer => WebrtcOffer sock data
  | Answer => WebrtcAnswer sock data
  | IceCandidate => WebrtcIceCandidate sock data
  end.

Definition relay_field (k : RelayKind) : string :=
  match k with Offer => "offer" | Answer => "answer" | IceCandidate => "candidate" end.

Definition relay_forwarded (k : RelayKind) : string :=
  match k with
  | Offer => "webrtc-offer-received"
  | Answer => "webrtc-answer-received"
  | IceCandidate => "webrtc-ice-candidate-received"
  end.

(** What a relay of kind [k] forwards for [sock]. *)
Definition forwarded (k : RelayKind) (sock : string) (body : JsValue) (to : string) : Delivery :=
  mkDelivery to (relay_forwarded k) [JObj [(relay_field k, body); ("senderSocketId", JStr sock)]].

(** ** The events the handlers emit *)

Definition not_found (sock : string) : Delivery :=
  mkDelivery sock "join-room-error" [JStr "Room not found or is no longer available!"].

Definition internal_error (sock : string) : Delivery :=
  mkDelivery sock "join-room-error" [JStr "An internal server error occurred."].

Definition closed (to : string) : Delivery :=
  mkDelivery to "room-closed-by-sender" [].

Definition peer_left (sock to : string) : Delivery :=
  mkDelivery to "peer-left" [JObj [("peerSocketId", JStr sock)]].

Definition join_success (sock : string) (r : ShareRoom) (others : list string) : Delivery :=
  mkDelivery sock "join-success"
    [JObj [("fileMetadata", JArr (FileMetadata_toJs <$> fileMetadata r));
           ("otherPeerSocketIds", JArr (JStr <$> others))]].

Definition new_peer_joined (sock to : string) : Delivery :=
  mkDelivery to "new-peer-joined" [JObj [("peerSocketId", JStr sock)]].

Definition create_error (sock msg : string) : Delivery :=
  mkDelivery sock "create-room-error" [JStr msg].

Definition room_created (sock sid key : string) : Delivery :=
  mkDelivery sock "room-created" [JObj [("shareId", JStr sid); ("deletionKey", JStr key)]].

(** The two identifiers a [create-room] draws from the pool of [w], and the
    world once they are drawn: sixteen bytes of the pool are used. *)
Definition drawn_shareId (w : World) : string :=
  nanoid_chars 6 (entropy w) 0.

Definition drawn_deletionKey (w : World) : string :=
  nanoid_chars 10 (fun i => entropy w (6 + i)%nat) 0.

Definition after_draws (w : World) : World :=
  set_entropy (fun i => entropy w (6 + (10 + i))%nat) w.

(** Modelled from the spec: the low six bits of the [size] bytes of the pool
    that an identifier is made from, and the identifier that a list of such
    values selects. *)
Fixpoint drawn_bits (size : nat) (pool : nat -> N) (from : nat) : list N :=
  match size with
  | O => []
  | S n => N.land (pool from) 63 :: drawn_bits n pool (S from)
  end.

Definition id_of (bits : list N) : string :=
  string_of_list_ascii (symbol <$> bits).

(** The sixty-four values of six bits, and the patterns of [n] of them: the
    draws of [n] bytes, up to the bits that the generator does not read.  When
    the bytes of the pool are uniform, each pattern is as likely as any
    other. *)
Definition six_bit_values : list N := N.of_nat <$> seq 0 64.

Fixpoint patterns (n : nat) : list (list N) :=
  match n with
  | O => [[]]
  | S n' => b ← six_bit_values; cons b <$> patterns n'
  end.

(** ** The invariant of the state

    The unique indexes of the collection hold, and the connected sockets and
    every room are duplicate-free (they are JavaScript sets). *)

Record wf (w : World) : Prop := mk_wf {
  wf_shareId : NoDup (shareId <$> collection w);
  wf_deletionKey : NoDup (deletionKey <$> collection w);
  wf_connected : NoDup (connected w);
  wf_rooms : map_Forall (λ _ l, NoDup l) (rooms w)
}.

(** Share ids have six symbols; a connected socket is in the room named by
    its id, and a room whose name is not six symbols long holds no other
    socket than the one it is named after. *)
Record channels_ok (w : World) : Prop := mk_channels_ok {
  ids_six : Forall (λ s, String.length s = 6) (shareId <$> collection w);
  own_room : forall s, s ∈ connected w -> s ∈ members w s;
  other_rooms : forall r x, String.length r <> 6 -> x ∈ members w r -> x = r
}.

(** An event whose join payload, if it is a join, is a string, as a share
    id is. *)
Definition joins_by_id (e : Event) : bool :=
  match e with
  | JoinRoom _ (JStr _) => true
  | JoinRoom _ _ => false
  | _ => true
  end.

(** The state an event, or a run of events, ends in. *)
Definition world_of (o : Outcome) : World :=
  match o with Running w _ => w | Crashed _ w _ => w end.

(** Every receiver list of the collection is duplicate-free. *)
Definition receivers_duplicate_free (w : World) : Prop :=
  Forall (λ d, NoDup (receiverSocketIds d)) (collection w).

(** Every symbol of [s] is a symbol of the generator's alphabet. *)
Definition in_alphabet (s : string) : Prop :=
  Forall (λ c, c ∈ list_ascii_of_string urlAlphabet) (list_ascii_of_string s).

(** What an event, or a run of events, delivered. *)
Definition deliveries_of (o : Outcome) : list Delivery :=
  match o with Running _ out => out | Crashed _ _ out => out end.

(** ** Records of files, as the schema sees them *)

Definition absent (v : JsValue) : bool :=
  match v with JUndefined | JNull => true | _ => false end.

Definition absent_or_empty (v : JsValue) : bool :=
  match v with JUndefined | JNull => true | JStr s => String.eqb s "" | _ => false end.

(** A record whose three fields have the types of the schema, the two
    strings not empty; the number is any number. *)
Definition typed_record (v : JsValue) : bool :=
  match v with
  | JObj fields =>
      match lookup_field "originalName" fields, lookup_field "fileSize" fields,
            lookup_field "mimeType" fields with
      | JStr name, JNum _, JStr mime => nonempty name && nonempty mime
      | _, _, _ => false
      end
  | _ => false
  end.

(** What is stored for a record of the right types, and for [null]. *)
Definition stored_as (v : JsValue) : option FileMetadata :=
  match v with
  | JObj fields =>
      match lookup_field "originalName" fields, lookup_field "fileSize" fields,
            lookup_field "mimeType" fields with
      | JStr name, JNum size, JStr mime => Some (mkFileMetadata name size mime)
      | _, _, _ => None
      end
  | _ => None
  end.

(** A record that lacks a required field: no name or an empty one, no size,
    no media type or an empty one. *)
Definition lacks_required (v : JsValue) : bool :=
  match v with
  | JObj fields =>
      absent_or_empty (lookup_field "originalName" fields)
      || absent (lookup_field "fileSize" fields)
      || absent_or_empty (lookup_field "mimeType" fields)
  | _ => false
  end.

(** ** Payloads, pools and states of the examples *)

Definition sample_file : JsValue :=
  JObj [("originalName", JStr "a.txt"); ("fileSize", JNum (10 # 1));
        ("mimeType", JStr "text/plain")].

Definition counting_pool : nat -> N := fun i => N.of_nat i.

(** A pool whose first thirty-two bytes repeat with period sixteen, while
    the later ones do not. *)
Definition repeating_pool : nat -> N :=
  fun i => if Nat.ltb i 32 then N.of_nat (i mod 16) else N.of_nat i.

Definition odd_size_file : JsValue :=
  JObj [("originalName", JStr "a.txt"); ("fileSize", JNum (-3 # 2));
        ("mimeType", JStr "text/plain")].

(** A sender [A] with one room, a receiver [B] in it, and a third socket
    [C]. *)
Definition shared_world : World :=
  world_of (run castString_typed castNumber_typed castElement_typed castFilter_typed (initial true counting_pool)
    [Connect "A"; CreateRoom "A" 0 (JArr [sample_file]); Connect "B";
     JoinRoom "B" (JStr "useand"); Connect "C"]).

Definition shared_room : ShareRoom :=
  {| shareId := "useand"; senderSocketId := "A"; receiverSocketIds := ["B"];
     fileMetadata := [Some (mkFileMetadata "a.txt" (10 # 1) "text/plain")];
     isWaiting := true; deletionKey := "om-26T1983"; createdAt := 0 |}.

(** A sender [A] with two rooms; [B] has joined both. *)
Definition two_rooms_world : World :=
  world_of (run castString_typed castNumber_typed castElement_typed castFilter_typed (initial true counting_pool)
    [Connect "A"; CreateRoom "A" 0 (JArr [sample_file]);
     CreateRoom "A" 1 (JArr [sample_file]); Connect "B";
     JoinRoom "B" (JStr "useand"); JoinRoom "B" (JStr "40PX75")]).

Abbreviation typed_step := (step castString_typed castNumber_typed castElement_typed castFilter_typed).
Abbreviation typed_run := (run castString_typed castNumber_typed castElement_typed castFilter_typed).

Definition next_room : ShareRoom :=
  {| shareId := "40PX75"; senderSocketId := "C"; receiverSocketIds := [];
     fileMetadata := [Some (mkFileMetadata "a.txt" (10 # 1) "text/plain")];
     isWaiting := true; deletionKey := "pxJACKVERY"; createdAt := 7 |}.

Definition offer_for_B : JsValue :=
  JObj [("targetSocketId", JStr "B"); ("offer", JStr "sdp")].

(** Two payloads of [join-room] that are not share ids: a query operator
    that selects every share id but one, and an array that names a room and
    the socket [B]. *)
Definition any_but_nosuch : JsValue :=
  JObj [("$ne", JStr "nosuch")].

Definition room_and_B : JsValue :=
  JArr [JStr "useand"; JStr "B"].

Definition offer_for_nobody : JsValue :=
  JObj [("targetSocketId", JArr []); ("offer", JStr "sdp")].

Definition offer_for_room : JsValue :=
  JObj [("targetSocketId", JStr "useand"); ("offer", JStr "sdp")].

Definition second_room : ShareRoom :=
  {| shareId := "40PX75"; senderSocketId := "A"; receiverSocketIds := ["B"];
     fileMetadata := [Some (mkFileMetadata "a.txt" (10 # 1) "text/plain")];
     isWaiting := true; deletionKey := "pxJACKVERY"; createdAt := 1 |}.

Definition fresh_world : World :=
  world_of (typed_run (initial true counting_pool) [Connect "A"]).

Definition first_room_world : World :=
  world_of (typed_step fresh_world (CreateRoom "A" 0 (JArr [sample_file]))).

(** ** Further vocabulary *)

(** [d'] is the room [d], up to its list of receivers. *)
Definition same_room (d d' : ShareRoom) : Prop :=
  shareId d' = shareId d /\ senderSocketId d' = senderSocketId d /\
  fileMetadata d' = fileMetadata d /\ isWaiting d' = isWaiting d /\
  deletionKey d' = deletionKey d /\ createdAt d' = createdAt d.

(** The state [w] when the store has stopped answering. *)
Definition store_outage (w : World) : World :=
  {| collection := collection w; mongoUp := false; connected := connected w;
     rooms := rooms w; entropy := entropy w |}.

(** The state reached from the empty one, the store answering. *)
Definition reached (castString : JsValue -> option string)
    (castNumber : JsValue -> option Q)
    (castElement : JsValue -> option (option FileMetadata))
    (castFilter : JsValue -> option (string -> bool))
    (pool : nat -> N) (es : list Event) : World :=
  world_of (run castString castNumber castElement castFilter (initial true pool) es).

Definition shared_events : list Event :=
  [Connect "A"; CreateRoom "A" 0 (JArr [sample_file]); Connect "B";
   JoinRoom "B" (JStr "useand"); Connect "C"].

(** * Properties *)

(** ** The three relay kinds *)

Section Relay.

Variable castString : JsValue -> option string.
Variable castNumber : JsValue -> option Q.
Variable castElement : JsValue -> option (option FileMetadata).
Variable castFilter : JsValue -> option (string -> bool).

Local Abbreviation step := (step castString castNumber castElement castFilter).

Lemma step_relay (k : RelayKind) (w : World) (sock : string) (data : JsValue) :
  step w (relay_event k sock data) =
  run_handler (relay (relay_field k) (relay_forwarded k) sock data) w.
Proof. by destruct k. Qed.

Lemma relay_nullish (field ev sock : string) (data : JsValue) (w : World) :
  get_prop data "targetSocketId" = inl TypeError ->
  run_handler (relay field ev sock data) w = Crashed TypeError w [].
Proof.
  intros H. unfold run_handler, relay, bind. by rewrite H.
Qed.

Lemma relay_falsy (field ev sock : string) (data target : JsValue) (w : World) :
  get_prop data "targetSocketId" = inr target ->
  truthy target = false ->
  run_handler (relay field ev sock data) w = Running w [].
Proof.
  intros H Hf. unfold run_handler, relay, bind. rewrite H. cbn. by rewrite Hf.
Qed.

Lemma relay_truthy (field ev sock : string) (data target body : JsValue) (w : World) :
  get_prop data "targetSocketId" = inr target ->
  get_prop data field = inr body ->
  truthy target = true ->
  run_handler (relay field ev sock data) w =
  Running w ((fun m => mkDelivery m ev [JObj [(field, body); ("senderSocketId", JStr sock)]])
               <$> addressed w target).
Proof.
  intros H Hb Ht. unfold run_handler, relay, bind. rewrite H. cbn. rewrite Ht. cbn.
  by rewrite Hb.
Qed.

(** C3.  The relay handlers have no [try]/[catch], and read
    [data.targetSocketId] before anything else: on a payload that is
    [undefined] or [null] each of the three throws a [TypeError] that nothing
    catches; no error event is sent to the originating socket. *)
Theorem relay_throws_on_nullish_payload (k : RelayKind) (w : World) (sock : string) :
  step w (relay_event k sock JUndefined) = Crashed TypeError w [] /\
  step w (relay_event k sock JNull) = Crashed TypeError w [].
Proof.
  rewrite !step_relay. split; by apply relay_nullish.
Qed.

End Relay.

(** ** Lists of documents *)

Lemma find_None_intro {A} (p : A -> bool) (l : list A) :
  (forall x, x ∈ l -> p x = false) -> List.find p l = None.
Proof.
  induction l as [|a l IH]; intros H; [done|]. cbn.
  rewrite (H a) by apply list_elem_of_here.
  apply IH. intros x Hx. apply H. by apply list_elem_of_further.
Qed.

Lemma find_Some_split (p : ShareRoom -> bool) (l : list ShareRoom) (r : ShareRoom) :
  List.find p l = Some r ->
  exists l1 l2, l = l1 ++ r :: l2 /\ Forall (fun d => p d = false) l1 /\ p r = true /\
                remove_first p l = l1 ++ l2.
Proof.
  induction l as [|a l IH]; [done|]. cbn. destruct (p a) eqn:Hpa.
  - intros [= ->]. by exists [], l.
  - intros Hf. destruct (IH Hf) as (l1 & l2 & -> & Hl1 & Hr & Hrem).
    exists (a :: l1), l2. cbn. rewrite Hrem. repeat split; [|done].
    by constructor.
Qed.

Lemma remove_first_None (p : ShareRoom -> bool) (l : list ShareRoom) :
  List.find p l = None -> remove_first p l = l.
Proof.
  induction l as [|a l IH]; [done|]. cbn. destruct (p a); [done|].
  intros H. by rewrite IH.
Qed.

(** Under the unique index on [shareId], updating the first document with a
    share id is updating every document with it. *)
Lemma update_first_unique (sid : string) (f : ShareRoom -> ShareRoom) (l : list ShareRoom) :
  NoDup (shareId <$> l) ->
  update_first (has_shareId sid) f l =
  (fun d => if has_shareId sid d then f d else d) <$> l.
Proof.
  unfold has_shareId. induction l as [|a l IH]; [done|]. cbn. intros Hnd.
  apply NoDup_cons in Hnd as [Ha Hnd].
  destruct (String.eqb_spec (shareId a) sid) as [He|Hne].
  - f_equal. clear IH. induction l as [|b l IH]; [done|]. cbn.
    apply NoDup_cons in Hnd as [_ Hnd].
    destruct (String.eqb_spec (shareId b) sid) as [Hb|Hb].
    + exfalso. apply Ha. cbn. rewrite He, Hb. apply list_elem_of_here.
    + f_equal. apply IH; [|done]. intros Hin. apply Ha. cbn.
      by apply list_elem_of_further.
  - f_equal. by apply IH.
Qed.

Lemma update_first_found (p : ShareRoom -> bool) (f : ShareRoom -> ShareRoom)
    (l : list ShareRoom) (u : ShareRoom) :
  List.find p l = Some u -> f u ∈ update_first p f l.
Proof.
  induction l as [|a l IH]; [done|]. cbn. destruct (p a).
  - intros [= ->]. apply list_elem_of_here.
  - intros H. apply list_elem_of_further. by apply IH.
Qed.

Lemma update_first_others (p : ShareRoom -> bool) (f : ShareRoom -> ShareRoom)
    (l : list ShareRoom) (d : ShareRoom) :
  d ∈ l -> p d = false -> d ∈ update_first p f l.
Proof.
  intros Hd Hp. induction l as [|a l IH]; [by apply elem_of_nil in Hd|]. cbn.
  apply elem_of_cons in Hd as [->|Hd].
  - rewrite Hp. apply list_elem_of_here.
  - destruct (p a); apply list_elem_of_further; [done|by apply IH].
Qed.

Lemma filter_ne_absent (sock : string) (l : list string) :
  sock ∉ l -> filter (λ x, x ≠ sock) l = l.
Proof.
  induction l as [|x l IH]; [done|]. intros H.
  rewrite filter_cons. destruct (decide (x ≠ sock)) as [Hx|Hx].
  - f_equal. apply IH. intros Hin. apply H. by apply list_elem_of_further.
  - exfalso. apply H. apply dec_stable in Hx. subst. apply list_elem_of_here.
Qed.

Lemma pull_receiver_absent (sock : string) (d : ShareRoom) :
  sock ∉ receiverSocketIds d -> pull_receiver sock d = d.
Proof.
  intros H. unfold pull_receiver. rewrite filter_ne_absent by done. by destruct d.
Qed.

Lemma pull_many (sock : string) (l : list ShareRoom) :
  (fun d => if lists_receiver sock d then pull_receiver sock d else d) <$> l
  = pull_receiver sock <$> l.
Proof.
  apply list_fmap_ext. intros _ d _. unfold lists_receiver. case_bool_decide; [done|].
  by rewrite pull_receiver_absent.
Qed.

Lemma filter_ne_idemp (sock : string) (l : list string) :
  filter (λ x, x ≠ sock) (filter (λ x, x ≠ sock) l) = filter (λ x, x ≠ sock) l.
Proof.
  induction l as [|x l IH]; [done|]. rewrite filter_cons.
  destruct (decide (x ≠ sock)); [|done].
  rewrite filter_cons. destruct (decide (x ≠ sock)); [|done]. by rewrite IH.
Qed.

(** Each socket of a duplicate-free list of recipients gets one delivery,
    and no other socket gets any. *)
Lemma deliveries_once (mk : string -> Delivery) (l : list string) (c : string) :
  (forall m, dest (mk m) = m) -> NoDup l ->
  length (filter (λ dl, dest dl = c) (mk <$> l)) = if decide (c ∈ l) then 1 else 0.
Proof.
  intros Hmk. induction 1 as [|x l Hx Hnd IH]; [done|].
  rewrite fmap_cons, filter_cons, Hmk.
  destruct (decide (x = c)) as [->|Hne]; cbn [length]; rewrite IH.
  - rewrite (decide_True (P := c ∈ c :: l)) by apply list_elem_of_here.
    by rewrite decide_False.
  - destruct (decide (c ∈ l)) as [Hin|Hin].
    + rewrite decide_True; [done|]. by apply list_elem_of_further.
    + rewrite decide_False; [done|]. intros [->|?]%elem_of_cons; done.
Qed.

(** ** The transport *)

Lemma members_leave_all (sock : string) (w : World) (room : string) :
  members (leave_all sock w) room = filter (λ x, x ≠ sock) (members w room).
Proof.
  unfold members, leave_all. cbn. rewrite lookup_fmap.
  by destruct (rooms w !! KStr room).
Qed.

Lemma set_add_NoDup (x : string) (l : list string) : NoDup l -> NoDup (set_add x l).
Proof.
  intros H. unfold set_add. case_decide; [done|].
  apply NoDup_app. repeat split; [done| |apply NoDup_singleton].
  intros y Hy ->%list_elem_of_singleton. done.
Qed.

(** ** What each handler does, case by case *)

Lemma collection_set_collection (c : list ShareRoom) (w : World) :
  collection (set_collection c w) = c.
Proof. done. Qed.

Lemma addressed_set_collection (c : list ShareRoom) (w : World) (v : JsValue) :
  addressed (set_collection c w) v = addressed w v.
Proof. done. Qed.

Lemma joined_all_fields (sock : string) (v : JsValue) (w : World) :
  collection (joined_all sock v w) = collection w /\
  mongoUp (joined_all sock v w) = mongoUp w /\
  connected (joined_all sock v w) = connected w /\
  entropy (joined_all sock v w) = entropy w.
Proof.
  unfold joined_all. generalize (room_list v). intros keys. revert w.
  induction keys as [|key keys IH]; intros w; [done|]. cbn.
  destruct (room_key key) as [k|]; [|apply IH].
  destruct (IH (joined_key sock k w)) as (-> & -> & -> & ->). done.
Qed.

Section Join.

Variable castFilter : JsValue -> option (string -> bool).

Local Abbreviation join_room := (join_room castFilter).
Local Abbreviation cast_shareId := (cast_shareId castFilter).

Lemma join_room_store_down (w : World) (sock : string) (v : JsValue) :
  mongoUp w = false ->
  run_handler (join_room sock v) w = Running w [internal_error sock].
Proof.
  intros Hup. unfold run_handler, join_room, try_catch, bind, cast_filter, findOne, store.
  destruct (cast_shareId v) as [p|]; cbn; [|done]. by rewrite Hup.
Qed.

Lemma join_room_cast_error (w : World) (sock : string) (v : JsValue) :
  cast_shareId v = None ->
  run_handler (join_room sock v) w = Running w [internal_error sock].
Proof.
  intros Hc. unfold run_handler, join_room, try_catch, bind, cast_filter.
  by rewrite Hc.
Qed.

Lemma join_room_no_match (w : World) (sock : string) (v : JsValue) (p : string -> bool) :
  mongoUp w = true ->
  cast_shareId v = Some p ->
  List.find (open_matching p) (collection w) = None ->
  run_handler (join_room sock v) w = Running w [not_found sock].
Proof.
  intros Hup Hc Hf. unfold run_handler, join_room, try_catch, bind, cast_filter, findOne, store.
  rewrite Hc. cbn. rewrite Hup. cbn. by rewrite Hf.
Qed.

Lemma join_room_match (w : World) (sock : string) (v : JsValue) (p : string -> bool)
    (r : ShareRoom) :
  mongoUp w = true ->
  cast_shareId v = Some p ->
  List.find (open_matching p) (collection w) = Some r ->
  run_handler (join_room sock v) w =
  Running (set_collection (update_first (matching p) (push_receiver sock) (collection w))
             (joined_all sock v w))
    (join_success sock r (filter (λ x, x ≠ sock) (addressed (joined_all sock v w) v))
       :: (new_peer_joined sock <$> filter (λ x, x ≠ sock) (addressed (joined_all sock v w) v))).
Proof.
  intros Hup Hc Hf.
  destruct (joined_all_fields sock v w) as (Hjc & Hju & _ & _).
  unfold run_handler, join_room, try_catch, bind, cast_filter, findOne, store.
  rewrite Hc. cbn. rewrite Hup. cbn. rewrite Hf.
  unfold socket_join, updateOne, allSockets, socket_emit, socket_to_emit, send, modify,
    store, bind, get_world, ret. cbn. rewrite Hju, Hup. cbn.
  by rewrite Hjc, !addressed_set_collection.
Qed.

(** The three ways a join ends. *)
Lemma join_room_cases (w : World) (sock : string) (v : JsValue) :
  run_handler (join_room sock v) w = Running w [internal_error sock] \/
  run_handler (join_room sock v) w = Running w [not_found sock] \/
  exists p r,
    mongoUp w = true /\ cast_shareId v = Some p /\
    List.find (open_matching p) (collection w) = Some r /\
    run_handler (join_room sock v) w =
    Running (set_collection (update_first (matching p) (push_receiver sock) (collection w))
               (joined_all sock v w))
      (join_success sock r (filter (λ x, x ≠ sock) (addressed (joined_all sock v w) v))
         :: (new_peer_joined sock <$> filter (λ x, x ≠ sock) (addressed (joined_all sock v w) v))).
Proof.
  destruct (mongoUp w) eqn:Hup; [|left; by apply join_room_store_down].
  destruct (cast_shareId v) as [p|] eqn:Hc; [|left; by apply join_room_cast_error].
  destruct (List.find (open_matching p) (collection w)) as [r|] eqn:Hf.
  - right. right. exists p, r. by rewrite (join_room_match w sock v p r).
  - right. left. by apply (join_room_no_match w sock v p).
Qed.

(** A join whose payload is a string. *)
Lemma join_room_not_found (w : World) (sock sid : string) :
  mongoUp w = true ->
  List.find (open_room sid) (collection w) = None ->
  run_handler (join_room sock (JStr sid)) w = Running w [not_found sock].
Proof.
  intros Hup Hf. by apply (join_room_no_match w sock (JStr sid) (fun id => String.eqb id sid)).
Qed.

Lemma join_room_found (w : World) (sock sid : string) (r : ShareRoom) :
  mongoUp w = true ->
  List.find (open_room sid) (collection w) = Some r ->
  run_handler (join_room sock (JStr sid)) w =
  Running (set_collection (update_first (has_shareId sid) (push_receiver sock) (collection w))
             (joined sock sid w))
    (join_success sock r (filter (λ x, x ≠ sock) (set_add sock (members w sid)))
       :: (new_peer_joined sock <$> filter (λ x, x ≠ sock) (set_add sock (members w sid)))).
Proof.
  intros Hup Hf.
  rewrite (join_room_match w sock (JStr sid) (fun id => String.eqb id sid) r Hup eq_refl Hf).
  assert (Hm : addressed (joined_all sock (JStr sid) w) (JStr sid)
               = set_add sock (members w sid)).
  { change (default [] (<[KStr sid := set_add sock (members w sid)]> (rooms w) !! KStr sid)
            = set_add sock (members w sid)).
    by rewrite lookup_insert_eq. }
  by rewrite Hm.
Qed.

End Join.

Lemma disconnect_store_down (w : World) (sock : string) :
  mongoUp w = false ->
  run_handler (on_disconnect sock) (leave_all sock w) = Running (leave_all sock w) [].
Proof.
  intros Hup. unfold run_handler, on_disconnect, try_catch, bind, findOneAndDelete, store.
  cbn. by rewrite Hup.
Qed.

Lemma disconnect_sender (w : World) (sock : string) (room : ShareRoom) :
  mongoUp w = true ->
  List.find (sent_by sock) (collection w) = Some room ->
  run_handler (on_disconnect sock) (leave_all sock w) =
  Running (set_collection (remove_first (sent_by sock) (collection w)) (leave_all sock w))
    (closed <$> filter (λ x, x ≠ sock) (members w (shareId room))).
Proof.
  intros Hup Hf. unfold run_handler, on_disconnect, try_catch, bind, findOneAndDelete, store.
  cbn. rewrite Hup. cbn. rewrite Hf.
  unfold io_to_emit, bind, get_world, send. cbn.
  change (key_members (set_collection _ (leave_all sock w)) (KStr (shareId room)))
    with (members (leave_all sock w) (shareId room)).
  by rewrite members_leave_all.
Qed.

Lemma disconnect_receiver (w : World) (sock : string) :
  mongoUp w = true ->
  List.find (sent_by sock) (collection w) = None ->
  run_handler (on_disconnect sock) (leave_all sock w) =
  Running (set_collection (pull_receiver sock <$> collection w) (leave_all sock w))
    (peer_left sock <$> filter (λ x, x ≠ sock) (connected w)).
Proof.
  intros Hup Hf. unfold run_handler, on_disconnect, try_catch, bind, findOneAndDelete, store.
  cbn. rewrite Hup. cbn. rewrite Hf.
  unfold socket_broadcast_emit, updateMany, bind, get_world, send, store. cbn.
  rewrite Hup. cbn. rewrite remove_first_None by done.
  rewrite filter_ne_idemp. by rewrite pull_many.
Qed.

Section Create.

Variable castString : JsValue -> option string.
Variable castNumber : JsValue -> option Q.
Variable castElement : JsValue -> option (option FileMetadata).
Variable castFilter : JsValue -> option (string -> bool).

Local Abbreviation create := (create_room castString castNumber castElement).
Local Abbreviation new_room := (new_ShareRoom castString castNumber castElement).

Lemma create_room_invalid (w : World) (sock : string) (now : N) (payload : JsValue) :
  invalid_payload payload = true ->
  run_handler (create sock now payload) w =
  Running w [create_error sock "Invalid file metadata provided."].
Proof.
  intros Hi. unfold run_handler, create_room, try_catch. by rewrite Hi.
Qed.

Lemma create_room_rejected (w : World) (sock : string) (now : N) (payload : JsValue) :
  invalid_payload payload = false ->
  new_room (drawn_shareId w) sock (drawn_deletionKey w) payload now = None ->
  run_handler (create sock now payload) w =
  Running (after_draws w) [create_error sock "Failed to create room on server."].
Proof.
  intros Hi Hn. unfold run_handler, create_room, try_catch. rewrite Hi.
  unfold bind, nanoid, get_world, modify, ret, bind. cbn [fst snd set_entropy entropy].
  fold (drawn_shareId w). fold (drawn_deletionKey w). by rewrite Hn.
Qed.

Lemma create_room_store_down (w : World) (sock : string) (now : N) (payload : JsValue)
    (d : ShareRoom) :
  invalid_payload payload = false ->
  new_room (drawn_shareId w) sock (drawn_deletionKey w) payload now = Some d ->
  mongoUp w = false ->
  run_handler (create sock now payload) w =
  Running (after_draws w) [create_error sock "Failed to create room on server."].
Proof.
  intros Hi Hn Hup. unfold run_handler, create_room, try_catch. rewrite Hi.
  unfold bind, nanoid, get_world, modify, ret, bind. cbn [fst snd set_entropy entropy].
  fold (drawn_shareId w). fold (drawn_deletionKey w). rewrite Hn.
  unfold save, store. cbn [fst snd set_entropy collection mongoUp]. by rewrite Hup.
Qed.

Lemma create_room_duplicate (w : World) (sock : string) (now : N) (payload : JsValue)
    (d : ShareRoom) :
  invalid_payload payload = false ->
  new_room (drawn_shareId w) sock (drawn_deletionKey w) payload now = Some d ->
  mongoUp w = true ->
  violates_unique d (collection w) = true ->
  run_handler (create sock now payload) w =
  Running (after_draws w) [create_error sock "Failed to create room on server."].
Proof.
  intros Hi Hn Hup Hv. unfold run_handler, create_room, try_catch. rewrite Hi.
  unfold bind, nanoid, get_world, modify, ret, bind. cbn [fst snd set_entropy entropy].
  fold (drawn_shareId w). fold (drawn_deletionKey w). rewrite Hn.
  unfold save, store. cbn [fst snd set_entropy collection mongoUp]. rewrite Hup. by rewrite Hv.
Qed.

Lemma create_room_created (w : World) (sock : string) (now : N) (payload : JsValue)
    (d : ShareRoom) :
  invalid_payload payload = false ->
  new_room (drawn_shareId w) sock (drawn_deletionKey w) payload now = Some d ->
  mongoUp w = true ->
  violates_unique d (collection w) = false ->
  run_handler (create sock now payload) w =
  Running (joined sock (drawn_shareId w) (set_collection (collection w ++ [d]) (after_draws w)))
    [room_created sock (drawn_shareId w) (drawn_deletionKey w)].
Proof.
  intros Hi Hn Hup Hv. unfold run_handler, create_room, try_catch. rewrite Hi.
  unfold bind, nanoid, get_world, modify, ret, bind. cbn [fst snd set_entropy entropy].
  fold (drawn_shareId w). fold (drawn_deletionKey w). rewrite Hn.
  unfold save, store. cbn [fst snd set_entropy collection mongoUp]. rewrite Hup. by rewrite Hv.
Qed.

(** The document a valid payload is turned into. *)
Lemma new_ShareRoom_fields (sid sender key : string) (payload : JsValue) (now : N)
    (d : ShareRoom) :
  new_room sid sender key payload now = Some d ->
  shareId d = sid /\ senderSocketId d = sender /\ deletionKey d = key /\
  receiverSocketIds d = [] /\ isWaiting d = true /\ createdAt d = now.
Proof.
  unfold new_ShareRoom. destruct payload; try done.
  destruct (mapM _ _); [|done].
  destruct (_ && _); [|done]. by intros [= <-].
Qed.

(** Every [create-room] ends in one of two ways: a room is stored and its
    credentials go to the creator, or an error goes to the creator and the
    collection and the rooms are as before. *)
Lemma create_room_cases (w : World) (sock : string) (now : N) (payload : JsValue) :
  (exists d,
     new_room (drawn_shareId w) sock (drawn_deletionKey w) payload now = Some d /\
     invalid_payload payload = false /\ mongoUp w = true /\
     violates_unique d (collection w) = false /\
     run_handler (create sock now payload) w =
     Running (joined sock (drawn_shareId w) (set_collection (collection w ++ [d]) (after_draws w)))
       [room_created sock (drawn_shareId w) (drawn_deletionKey w)]) \/
  (exists w' msg,
     run_handler (create sock now payload) w = Running w' [create_error sock msg] /\
     collection w' = collection w /\ rooms w' = rooms w /\ connected w' = connected w /\
     mongoUp w' = mongoUp w).
Proof.
  destruct (invalid_payload payload) eqn:Hi.
  { right. eexists _, _. by rewrite create_room_invalid. }
  destruct (new_room (drawn_shareId w) sock (drawn_deletionKey w) payload now)
    as [d|] eqn:Hn.
  2:{ right. eexists _, _. by rewrite create_room_rejected. }
  destruct (mongoUp w) eqn:Hup.
  2:{ right. eexists _, _. by rewrite (create_room_store_down _ _ _ _ d). }
  destruct (violates_unique d (collection w)) eqn:Hv.
  { right. eexists _, _. by rewrite (create_room_duplicate _ _ _ _ d). }
  left. exists d. by rewrite (create_room_created _ _ _ _ d).
Qed.

End Create.

(** ** The invariant holds in every state the server reaches *)

Lemma wf_initial (up : bool) (pool : nat -> N) : wf (initial up pool).
Proof.
  split; cbn; try apply NoDup_nil_2. apply map_Forall_empty.
Qed.

Lemma wf_fields (w w' : World) :
  collection w' = collection w -> rooms w' = rooms w -> connected w' = connected w ->
  wf w -> wf w'.
Proof.
  intros Hc Hr Hk [H1 H2 H3 H4]. split; by rewrite ?Hc, ?Hr, ?Hk.
Qed.

Lemma wf_members (w : World) (room : string) : wf w -> NoDup (members w room).
Proof.
  intros H. unfold members. destruct (rooms w !! KStr room) as [l|] eqn:Hl; cbn.
  - by apply (wf_rooms w H (KStr room) l).
  - apply NoDup_nil_2.
Qed.

Lemma wf_joined (sock room : string) (w : World) : wf w -> wf (joined sock room w).
Proof.
  intros H. destruct H as [H1 H2 H3 H4] eqn:E. split; cbn; try done.
  apply map_Forall_insert_2; [|done]. apply set_add_NoDup. by apply wf_members.
Qed.

Lemma wf_joined_key (sock : string) (k : RoomKey) (w : World) :
  wf w -> wf (joined_key sock k w).
Proof.
  intros H. destruct H as [H1 H2 H3 H4] eqn:E. split; cbn; try done.
  apply map_Forall_insert_2; [|done]. apply set_add_NoDup.
  unfold key_members. destruct (rooms w !! k) as [l|] eqn:Hl; cbn.
  - by apply (H4 k l).
  - apply NoDup_nil_2.
Qed.

Lemma wf_joined_all (sock : string) (v : JsValue) (w : World) :
  wf w -> wf (joined_all sock v w).
Proof.
  unfold joined_all. generalize (room_list v). intros keys. revert w.
  induction keys as [|key keys IH]; intros w Hw; [done|]. cbn.
  destruct (room_key key) as [k|]; apply IH; [by apply wf_joined_key|done].
Qed.

Lemma wf_leave_all (sock : string) (w : World) : wf w -> wf (leave_all sock w).
Proof.
  intros [H1 H2 H3 H4]. split; cbn; try done.
  - by apply NoDup_filter.
  - apply map_Forall_fmap. eapply map_Forall_impl; [exact H4|].
    cbn. intros _ l Hl. by apply NoDup_filter.
Qed.

Lemma wf_set_collection (c : list ShareRoom) (w : World) :
  NoDup (shareId <$> c) -> NoDup (deletionKey <$> c) -> wf w -> wf (set_collection c w).
Proof. intros ? ? [H1 H2 H3 H4]. by split. Qed.

Lemma violates_unique_false (d : ShareRoom) (c : list ShareRoom) :
  violates_unique d c = false ->
  (shareId d ∉ shareId <$> c) /\ (deletionKey d ∉ deletionKey <$> c).
Proof.
  unfold violates_unique. induction c as [|a c IH]; cbn.
  - intros _. split; apply not_elem_of_nil.
  - intros [[Hs Hk]%orb_false_elim Hc]%orb_false_elim.
    destruct (IH Hc) as [IH1 IH2].
    apply String.eqb_neq in Hs. apply String.eqb_neq in Hk.
    split; apply not_elem_of_cons; split; congruence.
Qed.

Lemma remove_first_elem (p : ShareRoom -> bool) (l : list ShareRoom) (d : ShareRoom) :
  d ∈ remove_first p l -> d ∈ l.
Proof.
  induction l as [|a l IH]; [done|]. cbn. destruct (p a).
  - apply list_elem_of_further.
  - intros [->|H]%elem_of_cons; [apply list_elem_of_here|].
    apply list_elem_of_further. by apply IH.
Qed.

Lemma remove_first_NoDup {B} (f : ShareRoom -> B) (p : ShareRoom -> bool)
    (l : list ShareRoom) :
  NoDup (f <$> l) -> NoDup (f <$> remove_first p l).
Proof.
  induction l as [|a l IH]; [done|]. cbn. intros [Ha Hl]%NoDup_cons.
  destruct (p a); [done|]. cbn. apply NoDup_cons. split; [|by apply IH].
  intros (d & Hd & Hin)%list_elem_of_fmap. apply Ha. rewrite Hd.
  apply list_elem_of_fmap_2. by apply remove_first_elem in Hin.
Qed.

Lemma update_first_proj {B} (g : ShareRoom -> B) (p : ShareRoom -> bool)
    (f : ShareRoom -> ShareRoom) (l : list ShareRoom) :
  (forall d, g (f d) = g d) -> g <$> update_first p f l = g <$> l.
Proof.
  intros Hf. induction l as [|a l IH]; [done|]. cbn. destruct (p a); cbn.
  - by rewrite Hf.
  - by rewrite IH.
Qed.

Lemma fmap_proj {B} (g : ShareRoom -> B) (f : ShareRoom -> ShareRoom) (l : list ShareRoom) :
  (forall d, g (f d) = g d) -> g <$> (f <$> l) = g <$> l.
Proof.
  intros Hf. rewrite <- list_fmap_compose. apply list_fmap_ext. intros _ d _. apply Hf.
Qed.

Lemma relay_keeps_world (field ev sock : string) (data : JsValue) (w : World) :
  world_of (run_handler (relay field ev sock data) w) = w.
Proof.
  unfold run_handler, relay, bind.
  destruct (get_prop data "targetSocketId") as [e|target]; [done|]. cbn.
  destruct (truthy target); [|done]. cbn.
  by destruct (get_prop data field).
Qed.

Section Invariant.

Variable castString : JsValue -> option string.
Variable castNumber : JsValue -> option Q.
Variable castElement : JsValue -> option (option FileMetadata).
Variable castFilter : JsValue -> option (string -> bool).

Local Abbreviation step := (step castString castNumber castElement castFilter).
Local Abbreviation run := (run castString castNumber castElement castFilter).

(** Every event keeps the invariant, whatever its payload. *)
Lemma wf_step (w : World) (e : Event) : wf w -> wf (world_of (step w e)).
Proof.
  intros Hw. destruct e as [sock|sock now payload|sock sid|sock data|sock data|sock data|sock]; cbn.
  - apply wf_joined. destruct Hw as [H1 H2 H3 H4]. split; try done.
    cbn. unfold set_add. case_decide; [done|].
    apply NoDup_app. repeat split; [done| |apply NoDup_singleton].
    by intros y Hy ->%list_elem_of_singleton.
  - destruct (create_room_cases castString castNumber castElement w sock now payload)
      as [(d & Hn & Hi & Hup & Hv & ->)|(w' & msg & -> & Hc & Hr & Hk & _)]; cbn.
    + apply wf_joined. destruct (violates_unique_false _ _ Hv) as [Hs Hd].
      apply wf_set_collection.
      * rewrite fmap_app. apply NoDup_app. repeat split; [apply Hw| |apply NoDup_singleton].
        intros x Hx ->%list_elem_of_singleton. done.
      * rewrite fmap_app. apply NoDup_app. repeat split; [apply Hw| |apply NoDup_singleton].
        intros x Hx ->%list_elem_of_singleton. done.
      * by apply (wf_fields w).
    + by apply (wf_fields w).
  - destruct (join_room_cases castFilter w sock sid)
      as [-> | [-> | (p & r & Hup & Hc & Hf & ->)]]; cbn; try done.
    apply wf_set_collection; [| |by apply wf_joined_all].
    + rewrite update_first_proj by done. apply Hw.
    + rewrite update_first_proj by done. apply Hw.
  - unfold webrtc_offer. by rewrite relay_keeps_world.
  - unfold webrtc_answer. by rewrite relay_keeps_world.
  - unfold webrtc_ice_candidate. by rewrite relay_keeps_world.
  - destruct (mongoUp w) eqn:Hup.
    2:{ rewrite disconnect_store_down by done. by apply wf_leave_all. }
    destruct (List.find (sent_by sock) (collection w)) as [r|] eqn:Hf.
    + rewrite (disconnect_sender _ _ r) by done. cbn.
      apply wf_set_collection; [| |by apply wf_leave_all].
      * apply remove_first_NoDup, Hw.
      * apply remove_first_NoDup, Hw.
    + rewrite disconnect_receiver by done. cbn.
      apply wf_set_collection; [| |by apply wf_leave_all].
      * rewrite fmap_proj by done. apply Hw.
      * rewrite fmap_proj by done. apply Hw.
Qed.

Lemma wf_run (es : list Event) (w : World) : wf w -> wf (world_of (run w es)).
Proof.
  revert w. induction es as [|e es IH]; intros w Hw; [done|]. cbn.
  pose proof (wf_step w e Hw) as Hs.
  destruct (step w e) as [w1 out1|err w1 out1]; cbn in Hs; [|done].
  specialize (IH w1 Hs). by destruct (run w1 es).
Qed.

End Invariant.

(** ** Join and disconnect *)

Section Sessions.

Variable castString : JsValue -> option string.
Variable castNumber : JsValue -> option Q.
Variable castElement : JsValue -> option (option FileMetadata).
Variable castFilter : JsValue -> option (string -> bool).

Local Abbreviation step := (step castString castNumber castElement castFilter).

(** X14.  A join whose payload is a string under which the collection holds
    no waiting room (no room at all, or only a room that is not waiting)
    changes nothing and answers the joiner with the one not-found error; the
    answer does not depend on the collection, so the caller cannot tell the
    cases apart. *)
Theorem join_unknown_or_closed_not_found (w : World) (sock sid : string) :
  mongoUp w = true ->
  (forall d, d ∈ collection w -> shareId d = sid -> isWaiting d = false) ->
  step w (JoinRoom sock (JStr sid)) = Running w [not_found sock] /\
  forall w2, mongoUp w2 = true ->
    (forall d, d ∈ collection w2 -> shareId d <> sid) ->
    exists out, step w2 (JoinRoom sock (JStr sid)) = Running w2 out /\
                step w (JoinRoom sock (JStr sid)) = Running w out.
Proof.
  assert (Hnf : forall v, mongoUp v = true ->
            (forall d, d ∈ collection v -> shareId d = sid -> isWaiting d = false) ->
            step v (JoinRoom sock (JStr sid)) = Running v [not_found sock]).
  { intros v Hup Hno. cbn. apply join_room_not_found; [done|].
    apply find_None_intro. intros d Hd. unfold open_room.
    destruct (String.eqb_spec (shareId d) sid) as [He|]; [|done].
    by rewrite (Hno d Hd He). }
  intros Hup Hno. split; [by apply Hnf|].
  intros w2 Hup2 Hno2. exists [not_found sock]. split; [|by apply Hnf].
  apply Hnf; [done|]. intros d Hd He. by destruct (Hno2 d Hd).
Qed.

(** C6.  The handler does not check that the payload of [join-room] is a
    string before it uses it as a filter.  A payload that is not a string,
    and so is the share id of no room, is not answered with the not-found
    error when the filter it is read as selects a waiting room, here the
    room [r] and no other: the caller gets [join-success] with the files of
    [r] and is appended to the receivers of [r], and every other room stays
    in the collection as it was.  When the payload is an object, the caller
    learns of no peer, no peer learns of the caller, and no channel
    changes. *)
Theorem join_admits_payload_that_is_no_id (w : World) (sock : string) (v : JsValue)
    (selected : string -> bool) (r : ShareRoom) :
  (forall sid, v <> JStr sid) ->
  mongoUp w = true ->
  castFilter v = Some selected ->
  r ∈ collection w ->
  isWaiting r = true ->
  (forall d, d ∈ collection w -> selected (shareId d) = true <-> d = r) ->
  exists w' others,
    step w (JoinRoom sock v) =
      Running w' (join_success sock r others :: (new_peer_joined sock <$> others)) /\
    step w (JoinRoom sock v) <> Running w [not_found sock] /\
    push_receiver sock r ∈ collection w' /\
    (forall d, d ∈ collection w -> d <> r -> d ∈ collection w') /\
    length (collection w') = length (collection w) /\
    (forall fields, v = JObj fields -> others = [] /\ rooms w' = rooms w).
Proof.
  intros Hv Hup Hc Hr Hwait Honly.
  assert (Hcast : cast_shareId castFilter v = Some selected).
  { destruct v as [| | | |sid| |]; try done. by destruct (Hv sid). }
  assert (Hf : List.find (open_matching selected) (collection w) = Some r).
  { destruct (List.find (open_matching selected) (collection w)) as [d|] eqn:Hf.
    - apply find_some in Hf as [Hd%list_elem_of_In [Hp _]%andb_prop]. f_equal.
      by apply Honly.
    - exfalso. apply find_none with (x := r) in Hf; [|by apply list_elem_of_In].
      unfold open_matching in Hf. rewrite Hwait in Hf.
      rewrite (proj2 (Honly r Hr) eq_refl) in Hf. discriminate Hf. }
  assert (Hu : List.find (matching selected) (collection w) = Some r).
  { destruct (List.find (matching selected) (collection w)) as [d|] eqn:Hu.
    - apply find_some in Hu as [Hd%list_elem_of_In Hp]. f_equal. by apply Honly.
    - exfalso. apply find_none with (x := r) in Hu; [|by apply list_elem_of_In].
      unfold matching in Hu. rewrite (proj2 (Honly r Hr) eq_refl) in Hu. discriminate Hu. }
  eexists _, _. cbn. rewrite (join_room_match castFilter w sock v selected r Hup Hcast Hf).
  split; [reflexivity|]. split; [discriminate|]. cbn.
  split; [by apply update_first_found|]. split; [|split].
  - intros d Hd Hne. apply update_first_others; [done|].
    unfold matching. destruct (selected (shareId d)) eqn:Hp; [|done].
    by apply Honly in Hp.
  - rewrite <- (length_fmap shareId), update_first_proj by done. apply length_fmap.
  - by intros fields ->.
Qed.

(** C4.  When the socket that disconnects is the sender of a room of the
    collection, the room found for it is deleted, each socket still in the
    channel of that room gets [room-closed-by-sender] once and no other socket
    gets anything, every other document stays as it was, and a later join for
    the share id of the deleted room is answered with the not-found error. *)
Theorem sender_disconnect_closes_room (w : World) (sock : string) (room : ShareRoom) :
  mongoUp w = true ->
  wf w ->
  List.find (sent_by sock) (collection w) = Some room ->
  exists w' out,
    step w (Disconnect sock) = Running w' out /\
    out = closed <$> filter (λ x, x ≠ sock) (members w (shareId room)) /\
    (forall c, length (filter (λ dl, dest dl = c) out) =
               if decide (c ∈ members w (shareId room) /\ c ≠ sock) then 1 else 0) /\
    (forall d, d ∈ collection w' -> shareId d <> shareId room /\ d ∈ collection w) /\
    length (collection w) = S (length (collection w')) /\
    (forall joiner,
       step w' (JoinRoom joiner (JStr (shareId room))) = Running w' [not_found joiner]).
Proof.
  intros Hup Hw Hf. eexists _, _. split; [cbn; by apply disconnect_sender|].
  destruct (find_Some_split _ _ _ Hf) as (l1 & l2 & Hl & Hl1 & Hr & Hrem).
  assert (Hgone : forall d, d ∈ l1 ++ l2 -> shareId d <> shareId room /\ d ∈ collection w).
  { intros d Hd. pose proof (wf_shareId w Hw) as Hnd. rewrite Hl in *.
    rewrite fmap_app, fmap_cons in Hnd.
    apply NoDup_app in Hnd as (_ & Hdisj & [Hroom _]%NoDup_cons).
    apply elem_of_app in Hd as [Hd|Hd].
    - split; [|apply elem_of_app; by left].
      intros He. apply (Hdisj (shareId d)); [by apply list_elem_of_fmap_2|].
      rewrite He. apply list_elem_of_here.
    - split; [|apply elem_of_app; right; by apply list_elem_of_further].
      intros He. apply Hroom. rewrite <- He. by apply list_elem_of_fmap_2. }
  split; [done|]. split.
  { intros c. rewrite deliveries_once; [|done|by apply NoDup_filter, wf_members].
    destruct (decide (c ∈ filter (λ x, x ≠ sock) (members w (shareId room)))) as [Hin|Hin].
    - apply list_elem_of_filter in Hin as [? ?]. by rewrite decide_True.
    - rewrite decide_False; [done|]. intros [? ?]. apply Hin. by apply list_elem_of_filter. }
  rewrite !collection_set_collection, Hrem. split; [done|]. split.
  { rewrite Hl, !length_app. cbn. lia. }
  intros joiner. cbn. apply join_room_not_found; [done|].
  rewrite collection_set_collection. apply find_None_intro. intros d Hd. unfold open_room.
  destruct (String.eqb_spec (shareId d) (shareId room)) as [He|]; [|done].
  by destruct (Hgone d Hd).
Qed.

(** C5.  When the socket that disconnects is the sender of no room, every
    other connected socket gets [peer-left] with its id, whatever rooms it is
    in, and the id is pulled from the receiver list of every document: no
    document is deleted, none lists the id afterwards, a document that did not
    list it is unchanged, and so is the collection when no document did. *)
Theorem receiver_disconnect_pulls_everywhere (w : World) (sock : string) :
  mongoUp w = true ->
  List.find (sent_by sock) (collection w) = None ->
  exists w',
    step w (Disconnect sock) =
      Running w' (peer_left sock <$> filter (λ x, x ≠ sock) (connected w)) /\
    collection w' = pull_receiver sock <$> collection w /\
    shareId <$> collection w' = shareId <$> collection w /\
    length (collection w') = length (collection w) /\
    (forall d, d ∈ collection w' -> sock ∉ receiverSocketIds d) /\
    (forall d, d ∈ collection w -> sock ∉ receiverSocketIds d -> d ∈ collection w') /\
    ((forall d, d ∈ collection w -> sock ∉ receiverSocketIds d) -> collection w' = collection w).
Proof.
  intros Hup Hf. eexists. split; [cbn; by apply disconnect_receiver|].
  rewrite !collection_set_collection. split; [done|]. split; [by apply fmap_proj|].
  split; [apply length_fmap|]. split; [|split].
  - intros d (d0 & -> & _)%list_elem_of_fmap. unfold pull_receiver.
    cbn [receiverSocketIds]. intros [Hne _]%list_elem_of_filter. done.
  - intros d Hd Hno. apply list_elem_of_fmap. exists d.
    by rewrite pull_receiver_absent.
  - intros Hno. rewrite <- (list_fmap_id (collection w)) at 2.
    apply list_fmap_ext. intros _ d Hd%list_elem_of_lookup_2.
    by apply pull_receiver_absent, Hno.
Qed.

(** C9.  A disconnect deletes one document at most.  When the socket is the
    sender of several rooms, the first of them in the collection is deleted
    and only its channel is notified; every other document, those of the same
    sender included, stays in the collection exactly as it was, receiver lists
    included, and no [peer-left] is sent. *)
Theorem disconnect_deletes_one_room_only (w : World) (sock : string) :
  exists w' out,
    step w (Disconnect sock) = Running w' out /\
    length (collection w) <= S (length (collection w')) /\
    forall room, mongoUp w = true ->
      List.find (sent_by sock) (collection w) = Some room ->
      exists l1 l2,
        collection w = l1 ++ room :: l2 /\ collection w' = l1 ++ l2 /\
        Forall (fun d => sent_by sock d = false) l1 /\
        (forall d, d ∈ l2 -> sent_by sock d = true -> d ∈ collection w') /\
        out = closed <$> filter (λ x, x ≠ sock) (members w (shareId room)) /\
        Forall (fun dl => event dl = "room-closed-by-sender") out.
Proof.
  destruct (mongoUp w) eqn:Hup.
  2:{ eexists _, _. split; [cbn; by apply disconnect_store_down|].
      split; [cbn; lia|done]. }
  destruct (List.find (sent_by sock) (collection w)) as [r|] eqn:Hf.
  - eexists _, _. split; [cbn; by apply (disconnect_sender _ _ r)|].
    destruct (find_Some_split _ _ _ Hf) as (l1 & l2 & Hl & Hl1 & Hr & Hrem).
    rewrite !collection_set_collection, Hrem. split.
    { rewrite Hl, !length_app. cbn. lia. }
    intros room _ [= <-]. exists l1, l2. repeat split; try done.
    + intros d Hd _. apply elem_of_app. by right.
    + apply Forall_fmap, Forall_forall. done.
  - eexists _, _. split; [cbn; by apply disconnect_receiver|].
    split; [|done]. cbn. rewrite length_fmap. lia.
Qed.

End Sessions.

(** ** Duplicates in the receiver list *)

Lemma unique_by_shareId (l : list ShareRoom) (d r : ShareRoom) :
  NoDup (shareId <$> l) -> d ∈ l -> r ∈ l -> shareId d = shareId r -> d = r.
Proof.
  induction l as [|a l IH]; [by intros _ ?%elem_of_nil|].
  rewrite fmap_cons. intros [Ha Hl]%NoDup_cons.
  intros [->|Hd]%elem_of_cons [->|Hr]%elem_of_cons He; [done| | |by apply IH].
  - exfalso. apply Ha. rewrite He. by apply list_elem_of_fmap_2.
  - exfalso. apply Ha. rewrite <- He. by apply list_elem_of_fmap_2.
Qed.

Lemma find_open_room (sid : string) (l : list ShareRoom) (r : ShareRoom) :
  List.find (open_room sid) l = Some r -> r ∈ l /\ shareId r = sid.
Proof.
  intros [Hin Hp]%find_some. split; [by apply list_elem_of_In|].
  unfold open_room in Hp. apply andb_prop in Hp as [Hs _]. by apply String.eqb_eq.
Qed.

Lemma find_has_shareId (sid : string) (l : list ShareRoom) (u : ShareRoom) :
  List.find (has_shareId sid) l = Some u -> u ∈ l /\ shareId u = sid.
Proof.
  intros [Hin Hp]%find_some. split; [by apply list_elem_of_In|]. by apply String.eqb_eq.
Qed.

(** Appending to the receivers of the first selected document keeps the
    lists duplicate-free exactly when that document does not list the socket
    yet. *)
Lemma update_first_push_free (p : ShareRoom -> bool) (sock : string) (l : list ShareRoom) :
  Forall (λ d, NoDup (receiverSocketIds d)) l ->
  Forall (λ d, NoDup (receiverSocketIds d)) (update_first p (push_receiver sock) l) <->
  ~ exists u, List.find p l = Some u /\ sock ∈ receiverSocketIds u.
Proof.
  induction 1 as [|a l Ha Hl IH]; cbn.
  - split; [by intros _ (u & ? & _)|]. intros _. apply Forall_nil_2.
  - destruct (p a) eqn:Hp.
    + rewrite Forall_cons. cbn. split.
      * intros [Hnd _] (u & [= <-] & Hin).
        apply NoDup_app in Hnd as (_ & Hdisj & _).
        apply (Hdisj sock Hin). apply list_elem_of_here.
      * intros Hno. split; [|done].
        apply NoDup_app. repeat split; [done| |apply NoDup_singleton].
        intros x Hx ->%list_elem_of_singleton. apply Hno. by exists a.
    + rewrite Forall_cons. rewrite <- IH. tauto.
Qed.

Section Duplicates.

Variable castString : JsValue -> option string.
Variable castNumber : JsValue -> option Q.
Variable castElement : JsValue -> option (option FileMetadata).
Variable castFilter : JsValue -> option (string -> bool).

Local Abbreviation step := (step castString castNumber castElement castFilter).

(** C1, as the code has it.  From a state whose receiver lists are
    duplicate-free, an event leaves them duplicate-free unless it is a join
    that finds its room and comes from a socket the room already lists: the
    join appends the id without looking at the list, so a socket that joins
    the same share id twice is listed twice.  Whatever the payload of the
    join is, the lists stay duplicate-free unless the join appends the socket
    to a room that already lists it. *)
Theorem duplicates_only_from_repeated_join (w : World) (e : Event) :
  wf w ->
  receivers_duplicate_free w ->
  (forall sock sid, e = JoinRoom sock (JStr sid) ->
     receivers_duplicate_free (world_of (step w e)) <->
     ~ exists r,
         mongoUp w = true /\
         List.find (open_room sid) (collection w) = Some r /\ sock ∈ receiverSocketIds r) /\
  (receivers_duplicate_free (world_of (step w e)) <->
   ~ exists sock v d,
       e = JoinRoom sock v /\ d ∈ collection w /\ sock ∈ receiverSocketIds d /\
       push_receiver sock d ∈ collection (world_of (step w e))).
Proof.
  intros Hw Hfree.
  assert (Hgen : receivers_duplicate_free (world_of (step w e)) <->
    ~ exists sock v selected r u,
       e = JoinRoom sock v /\ mongoUp w = true /\
       cast_shareId castFilter v = Some selected /\
       List.find (open_matching selected) (collection w) = Some r /\
       List.find (matching selected) (collection w) = Some u /\ sock ∈ receiverSocketIds u).
  { unfold receivers_duplicate_free in *.
    destruct e as [sock|sock now payload|sock v|sock data|sock data|sock data|sock].
    - split; [by intros _ (? & ? & ? & ? & ? & ? & _)|]. intros _. done.
    - split; [by intros _ (? & ? & ? & ? & ? & ? & _)|]. intros _. cbn.
      destruct (create_room_cases castString castNumber castElement w sock now payload)
        as [(d & Hn & Hi & Hup & Hv & ->)|(w' & msg & -> & Hc & _)]; cbn.
      + apply Forall_app. split; [done|]. apply Forall_singleton.
        apply new_ShareRoom_fields in Hn as (_ & _ & _ & -> & _). apply NoDup_nil_2.
      + by rewrite Hc.
    - cbn. split.
      + intros Hall (sock' & v' & p & r & u & [= <- <-] & Hup & Hc & Hf & Hu & Hin).
        rewrite (join_room_match castFilter w sock v p r Hup Hc Hf) in Hall. cbn in Hall.
        apply update_first_push_free in Hall; [|done]. apply Hall. by exists u.
      + intros Hno. destruct (join_room_cases castFilter w sock v)
          as [-> | [-> | (p & r & Hup & Hc & Hf & ->)]]; cbn; try done.
        apply update_first_push_free; [done|]. intros (u & Hu & Hin).
        apply Hno. by exists sock, v, p, r, u.
    - split; [by intros _ (? & ? & ? & ? & ? & ? & _)|]. intros _. cbn.
      unfold webrtc_offer. by rewrite relay_keeps_world.
    - split; [by intros _ (? & ? & ? & ? & ? & ? & _)|]. intros _. cbn.
      unfold webrtc_answer. by rewrite relay_keeps_world.
    - split; [by intros _ (? & ? & ? & ? & ? & ? & _)|]. intros _. cbn.
      unfold webrtc_ice_candidate. by rewrite relay_keeps_world.
    - split; [by intros _ (? & ? & ? & ? & ? & ? & _)|]. intros _. cbn.
      destruct (mongoUp w) eqn:Hup; [|by rewrite disconnect_store_down].
      destruct (List.find (sent_by sock) (collection w)) as [r|] eqn:Hf.
      + rewrite (disconnect_sender _ _ r) by done. cbn.
        apply Forall_forall. intros d Hd%remove_first_elem.
        rewrite Forall_forall in Hfree. by apply Hfree.
      + rewrite disconnect_receiver by done. cbn.
        rewrite Forall_fmap. eapply Forall_impl; [exact Hfree|].
        cbn. intros d Hd. by apply NoDup_filter. }
  split.
  2:{ split.
      - intros Hall (sock & v & d & _ & _ & Hin & Hpush).
        unfold receivers_duplicate_free in Hall. rewrite Forall_forall in Hall.
        specialize (Hall _ Hpush). cbn in Hall.
        apply NoDup_app in Hall as (_ & Hdisj & _).
        apply (Hdisj sock Hin). apply list_elem_of_here.
      - intros Hno. apply Hgen.
        intros (sock & v & p & r & u & -> & Hup & Hc & Hf & Hu & Hin).
        apply Hno. exists sock, v, u. split; [done|].
        split; [by apply find_some in Hu as [?%list_elem_of_In _]|]. split; [done|].
        cbn. rewrite (join_room_match castFilter w sock v p r Hup Hc Hf). cbn.
        by apply update_first_found. }
  intros sock sid ->. rewrite Hgen. apply not_iff_compat. split.
  - intros (sock' & v' & p & r & u & [= <- <-] & Hup & [= <-] & Hf & Hu & Hin).
    exists r. split; [done|]. split; [exact Hf|].
    destruct (find_open_room _ _ _ Hf) as [Hr Hsid].
    destruct (find_has_shareId _ _ _ Hu) as [Hu' Hsid'].
    assert (u = r) as <-; [|done].
    apply (unique_by_shareId (collection w)); [apply Hw|done..|congruence].
  - intros (r & Hup & Hf & Hin).
    destruct (find_open_room _ _ _ Hf) as [Hr Hsid].
    destruct (List.find (has_shareId sid) (collection w)) as [u|] eqn:Hu.
    + destruct (find_has_shareId _ _ _ Hu) as [Hu' Hsid'].
      assert (u = r) as ->
        by (apply (unique_by_shareId (collection w)); [apply Hw|done..|congruence]).
      by exists sock, (JStr sid), (fun id => String.eqb id sid), r, r.
    + exfalso. apply find_none with (x := r) in Hu; [|by apply list_elem_of_In].
      unfold has_shareId in Hu. by rewrite Hsid, String.eqb_refl in Hu.
Qed.

End Duplicates.

(** C1, as the claim has it, fails: a sender creates a room and one socket
    joins it twice. *)
Lemma join_twice_lists_receiver_twice :
  receiverSocketIds <$>
    collection (world_of (run castString_typed castNumber_typed castElement_typed castFilter_typed (initial true counting_pool)
      [Connect "A"; CreateRoom "A" 0 (JArr [sample_file]); Connect "B";
       JoinRoom "B" (JStr "useand"); JoinRoom "B" (JStr "useand")]))
  = [["B"; "B"]] /\
  ~ receivers_duplicate_free
      (world_of (run castString_typed castNumber_typed castElement_typed castFilter_typed (initial true counting_pool)
        [Connect "A"; CreateRoom "A" 0 (JArr [sample_file]); Connect "B";
         JoinRoom "B" (JStr "useand"); JoinRoom "B" (JStr "useand")])).
Proof.
  assert (H : receiverSocketIds <$>
    collection (world_of (run castString_typed castNumber_typed castElement_typed castFilter_typed (initial true counting_pool)
      [Connect "A"; CreateRoom "A" 0 (JArr [sample_file]); Connect "B";
       JoinRoom "B" (JStr "useand"); JoinRoom "B" (JStr "useand")])) = [["B"; "B"]])
    by (vm_compute; reflexivity).
  split; [exact H|].
  unfold receivers_duplicate_free. intros Hall.
  apply (Forall_fmap receiverSocketIds NoDup) in Hall. rewrite H in Hall.
  apply Forall_cons in Hall as [Hdup _].
  apply NoDup_cons in Hdup as [Hin _]. apply Hin, list_elem_of_here.
Qed.

(** ** The generated identifiers *)

Lemma nanoid_chars_length (n : nat) (pool : nat -> N) (from : nat) :
  String.length (nanoid_chars n pool from) = n.
Proof.
  revert from. induction n as [|n IH]; intros from; [done|]. cbn. by rewrite IH.
Qed.

Lemma nanoid_chars_ext (n : nat) (p1 p2 : nat -> N) (i j : nat) :
  (forall k, k < n -> p1 (i + k) = p2 (j + k)) ->
  nanoid_chars n p1 i = nanoid_chars n p2 j.
Proof.
  revert i j. induction n as [|n IH]; intros i j H; [done|]. cbn.
  rewrite <- (Nat.add_0_r i), <- (Nat.add_0_r j) at 1.
  rewrite (H 0) by lia. f_equal.
  apply IH. intros k Hk. specialize (H (S k)).
  replace (S i + k) with (i + S k) by lia. replace (S j + k) with (j + S k) by lia.
  apply H. lia.
Qed.

Lemma get_in_string (s : string) (k : nat) (c : ascii) :
  String.get k s = Some c -> c ∈ list_ascii_of_string s.
Proof.
  revert k. induction s as [|a s IH]; intros k; [done|]. cbn.
  destruct k as [|k].
  - intros [= ->]. apply list_elem_of_here.
  - intros H. apply list_elem_of_further. by apply (IH k).
Qed.

Lemma symbol_in_alphabet (byte : N) : symbol byte ∈ list_ascii_of_string urlAlphabet.
Proof.
  unfold symbol.
  destruct (String.get (N.to_nat (N.land byte 63)) urlAlphabet) as [c|] eqn:Hg; cbn.
  - by apply get_in_string in Hg.
  - apply list_elem_of_here.
Qed.

Lemma nanoid_chars_in_alphabet (n : nat) (pool : nat -> N) (from : nat) :
  in_alphabet (nanoid_chars n pool from).
Proof.
  unfold in_alphabet. revert from. induction n as [|n IH]; intros from; cbn.
  - apply Forall_nil_2.
  - apply Forall_cons. split; [apply symbol_in_alphabet|apply IH].
Qed.

Lemma violates_unique_spec (d : ShareRoom) (c : list ShareRoom) :
  violates_unique d c = true <->
  shareId d ∈ (shareId <$> c) \/ deletionKey d ∈ (deletionKey <$> c).
Proof.
  destruct (violates_unique d c) eqn:Hv.
  - split; [intros _|done]. unfold violates_unique in Hv.
    apply existsb_exists in Hv as (d' & Hin%list_elem_of_In & [H|H]%orb_prop);
      apply String.eqb_eq in H; rewrite <- H; [left|right]; by apply list_elem_of_fmap_2.
  - split; [done|]. apply violates_unique_false in Hv as [H1 H2]. by intros [?|?].
Qed.

(** ** When two generated identifiers coincide

    The alphabet has sixty-four distinct symbols, so two identifiers of the
    same size are equal exactly when the low six bits of the bytes they were
    drawn from are. *)

Lemma alphabet_distinct : NoDup (list_ascii_of_string urlAlphabet).
Proof. compute_done. Qed.

Lemma get_lookup (s : string) (k : nat) :
  String.get k s = list_ascii_of_string s !! k.
Proof.
  revert k. induction s as [|a s IH]; intros k; [done|]. destruct k as [|k]; [done|].
  cbn. apply IH.
Qed.

Lemma six_bits_bound (byte : N) : N.to_nat (N.land byte 63) < 64.
Proof.
  change 63%N with (N.ones 6). rewrite N.land_ones.
  pose proof (N.mod_upper_bound byte (2 ^ 6)) as H.
  change (2 ^ 6)%N with 64%N in *. lia.
Qed.

Lemma symbol_lookup (byte : N) :
  list_ascii_of_string urlAlphabet !! N.to_nat (N.land byte 63) = Some (symbol byte).
Proof.
  unfold symbol. rewrite get_lookup.
  destruct (lookup_lt_is_Some_2 (list_ascii_of_string urlAlphabet)
              (N.to_nat (N.land byte 63))) as [c ->]; [|done].
  apply six_bits_bound.
Qed.

Lemma symbol_inj (a b : N) : symbol a = symbol b <-> N.land a 63 = N.land b 63.
Proof.
  split.
  - intros He. apply N2Nat.inj.
    apply (NoDup_lookup _ _ _ (symbol a) alphabet_distinct); [apply symbol_lookup|].
    rewrite He. apply symbol_lookup.
  - intros He. unfold symbol. by rewrite He.
Qed.

Lemma nanoid_chars_inj (n : nat) (p1 p2 : nat -> N) (i j : nat) :
  nanoid_chars n p1 i = nanoid_chars n p2 j <->
  forall k, k < n -> N.land (p1 (i + k)) 63 = N.land (p2 (j + k)) 63.
Proof.
  revert i j. induction n as [|n IH]; intros i j; cbn.
  - split; [intros _ k Hk; lia|done].
  - split.
    + intros [= Hs Hrest] k Hk. destruct k as [|k].
      * rewrite !Nat.add_0_r. by apply symbol_inj.
      * replace (i + S k) with (S i + k) by lia. replace (j + S k) with (S j + k) by lia.
        apply (proj1 (IH (S i) (S j)) Hrest). lia.
    + intros H. f_equal.
      * apply symbol_inj. specialize (H 0). rewrite !Nat.add_0_r in H. apply H. lia.
      * apply IH. intros k Hk. specialize (H (S k)).
        replace (i + S k) with (S i + k) in H by lia.
        replace (j + S k) with (S j + k) in H by lia. apply H. lia.
Qed.

(** ** How many draws give an identifier again *)

Lemma land_six_bits (b : N) : N.land (N.land b 63) 63 = N.land b 63.
Proof. by rewrite <- N.land_assoc, N.land_diag. Qed.

Lemma nanoid_chars_id_of (n : nat) (pool : nat -> N) (from : nat) :
  nanoid_chars n pool from = id_of (drawn_bits n pool from).
Proof.
  unfold id_of. revert from. induction n as [|n IH]; intros from; [done|]. cbn.
  rewrite IH. f_equal. apply symbol_inj. by rewrite land_six_bits.
Qed.

Lemma six_bit_values_spec (b : N) : b ∈ six_bit_values <-> (b < 64)%N.
Proof.
  unfold six_bit_values. rewrite list_elem_of_fmap. split.
  - intros (k & -> & Hk%elem_of_seq). lia.
  - intros Hb. exists (N.to_nat b). split; [by rewrite N2Nat.id|]. apply elem_of_seq. lia.
Qed.

Lemma six_bit_values_distinct : NoDup six_bit_values.
Proof.
  unfold six_bit_values. apply NoDup_fmap_2; [|apply NoDup_seq].
  intros x y H. by apply Nat2N.inj.
Qed.

Lemma patterns_spec (n : nat) (bits : list N) :
  bits ∈ patterns n <-> length bits = n /\ Forall (fun b => (b < 64)%N) bits.
Proof.
  revert bits. induction n as [|n IH]; intros bits; cbn [patterns].
  - rewrite list_elem_of_singleton. split; [by intros ->|].
    intros [Hl _]. by destruct bits.
  - rewrite list_elem_of_bind. split.
    + intros (b & (rest & -> & Hrest)%list_elem_of_fmap & Hb).
      apply IH in Hrest as [Hl Hall]. apply six_bit_values_spec in Hb.
      split; [cbn; by rewrite Hl|by constructor].
    + intros [Hl Hall]. destruct bits as [|b rest]; [done|].
      apply Forall_cons in Hall as [Hb Hall]. exists b.
      split; [|by apply six_bit_values_spec].
      apply list_elem_of_fmap. exists rest. split; [done|]. apply IH.
      split; [by injection Hl|done].
Qed.

Lemma patterns_distinct (n : nat) : NoDup (patterns n).
Proof.
  induction n as [|n IH]; cbn [patterns]; [apply NoDup_singleton|].
  apply NoDup_bind; [| |apply six_bit_values_distinct].
  - intros b1 b2 bits _ _ (r1 & -> & _)%list_elem_of_fmap (r2 & [= -> _] & _)%list_elem_of_fmap.
    done.
  - intros b _. apply NoDup_fmap_2; [|done]. by intros x y [= ->].
Qed.

Lemma length_bind_const {A B} (f : A -> list B) (l : list A) (m : nat) :
  (forall x, length (f x) = m) -> length (l ≫= f) = length l * m.
Proof.
  intros H. induction l as [|x l IH]; [done|]. cbn. rewrite length_app, H, IH. done.
Qed.

Lemma patterns_count (n : nat) : Z.of_nat (length (patterns n)) = (64 ^ Z.of_nat n)%Z.
Proof.
  induction n as [|n IH]; [done|]. cbn [patterns].
  rewrite (length_bind_const _ _ (length (patterns n))) by (intros x; apply length_fmap).
  rewrite Nat2Z.inj_mul, IH, Nat2Z.inj_succ, Z.pow_succ_r by lia.
  f_equal.
Qed.

Lemma drawn_bits_pattern (n : nat) (pool : nat -> N) (from : nat) :
  drawn_bits n pool from ∈ patterns n.
Proof.
  apply patterns_spec. revert from. induction n as [|n IH]; intros from; cbn; [done|].
  destruct (IH (S from)) as [Hl Hall]. split; [by rewrite Hl|].
  constructor; [|done]. pose proof (six_bits_bound (pool from)). lia.
Qed.

Lemma id_of_inj (n : nat) (b1 b2 : list N) :
  b1 ∈ patterns n -> b2 ∈ patterns n -> id_of b1 = id_of b2 -> b1 = b2.
Proof.
  intros [Hl1 H1]%patterns_spec [Hl2 H2]%patterns_spec. unfold id_of.
  revert n b2 Hl1 Hl2 H2. induction H1 as [|x b1 Hx H1 IH]; intros n b2 Hl1 Hl2 H2.
  - destruct b2; [done|]. cbn in *. congruence.
  - destruct H2 as [|y b2 Hy H2]; [cbn in *; congruence|].
    cbn. intros [= Hs Hrest]. destruct n as [|n]; [done|].
    f_equal.
    + apply symbol_inj in Hs.
      assert (Hland : forall z, (z < 64)%N -> N.land z 63 = z).
      { intros z Hz. change 63%N with (N.ones 6). rewrite N.land_ones.
        apply N.mod_small. by change (2 ^ 6)%N with 64%N. }
      by rewrite !Hland in Hs.
    + apply (IH n); [by injection Hl1|by injection Hl2|done..].
Qed.

Lemma filter_count {A} `{EqDecision A} (P : A -> Prop) `{!∀ x, Decision (P x)}
    (l : list A) (x : A) :
  NoDup l -> (forall y, y ∈ l -> P y <-> y = x) ->
  length (filter P l) = if decide (x ∈ l) then 1 else 0.
Proof.
  induction 1 as [|a l Ha Hnd IH]; intros HP; [done|].
  assert (HP' : forall y, y ∈ l -> P y <-> y = x)
    by (intros y Hy; apply HP; by apply list_elem_of_further).
  rewrite filter_cons.
  destruct (decide (P a)) as [Hpa|Hpa]; cbn [length]; rewrite (IH HP').
  - apply HP in Hpa as ->; [|apply list_elem_of_here].
    rewrite (decide_True (P := x ∈ x :: l)) by apply list_elem_of_here.
    by rewrite decide_False.
  - assert (a <> x) by (intros ->; apply Hpa, HP; [apply list_elem_of_here|done]).
    destruct (decide (x ∈ l)) as [Hin|Hin].
    + rewrite decide_True; [done|]. by apply list_elem_of_further.
    + rewrite decide_False; [done|]. intros [->|?]%elem_of_cons; done.
Qed.

(** Of the patterns of [n] six-bit values, one and only one gives a
    generated identifier of [n] symbols. *)
Lemma one_pattern_per_id (n : nat) (pool : nat -> N) (from : nat) :
  length (filter (λ bits, id_of bits = nanoid_chars n pool from) (patterns n)) = 1.
Proof.
  rewrite (filter_count _ _ (drawn_bits n pool from)).
  - rewrite decide_True; [done|]. apply drawn_bits_pattern.
  - apply patterns_distinct.
  - intros bits Hbits. rewrite nanoid_chars_id_of. split.
    + apply (id_of_inj n); [done|apply drawn_bits_pattern].
    + by intros ->.
Qed.

(** ** Create *)

Section CreateClaims.

Variable castString : JsValue -> option string.
Variable castNumber : JsValue -> option Q.
Variable castElement : JsValue -> option (option FileMetadata).
Variable castFilter : JsValue -> option (string -> bool).

Local Abbreviation step := (step castString castNumber castElement castFilter).
Local Abbreviation new_room := (new_ShareRoom castString castNumber castElement).
Local Abbreviation cast_file := (cast_FileMetadata castString castNumber castElement).

(** C2, as the code has it.  A [create-room] with a payload that passes
    validation draws the share id and the deletion key once each, from
    disjoint bytes of the pool (six, then ten), and uses sixteen bytes of the
    pool whatever happens.  When one of the two is already in the collection
    the request fails at once with the general error of [create-room] and
    stores nothing; there is no second draw.  Otherwise the room is stored. *)
Theorem create_draws_once_without_retry (w : World) (sock : string) (now : N)
    (payload : JsValue) (d : ShareRoom) :
  invalid_payload payload = false ->
  new_room (drawn_shareId w) sock (drawn_deletionKey w) payload now = Some d ->
  mongoUp w = true ->
  exists w' out,
    step w (CreateRoom sock now payload) = Running w' out /\
    (forall i, entropy w' i = entropy w (16 + i)) /\
    (forall v, (forall i, i < 6 -> entropy v i = entropy w i) ->
               drawn_shareId v = drawn_shareId w) /\
    (forall v, (forall i, 6 <= i < 16 -> entropy v i = entropy w i) ->
               drawn_deletionKey v = drawn_deletionKey w) /\
    (drawn_shareId w ∈ (shareId <$> collection w) \/
     drawn_deletionKey w ∈ (deletionKey <$> collection w) ->
       out = [create_error sock "Failed to create room on server."] /\
       collection w' = collection w /\ rooms w' = rooms w) /\
    (drawn_shareId w ∉ (shareId <$> collection w) ->
     drawn_deletionKey w ∉ (deletionKey <$> collection w) ->
       out = [room_created sock (drawn_shareId w) (drawn_deletionKey w)] /\
       collection w' = collection w ++ [d]).
Proof.
  intros Hi Hn Hup.
  destruct (new_ShareRoom_fields _ _ _ _ _ _ _ _ _ Hn) as (Hsid & _ & Hkey & _).
  assert (Hext1 : forall v, (forall i, i < 6 -> entropy v i = entropy w i) ->
                            drawn_shareId v = drawn_shareId w).
  { intros v Hv. apply nanoid_chars_ext. intros k Hk. by apply Hv. }
  assert (Hext2 : forall v, (forall i, 6 <= i < 16 -> entropy v i = entropy w i) ->
                            drawn_deletionKey v = drawn_deletionKey w).
  { intros v Hv. apply nanoid_chars_ext. intros k Hk. cbn. apply Hv. lia. }
  destruct (violates_unique d (collection w)) eqn:Hv.
  - eexists _, _. split; [cbn; by apply (create_room_duplicate _ _ _ _ _ _ _ d)|].
    split; [done|]. split; [done|]. split; [done|]. split; [done|].
    intros H1 H2. apply violates_unique_spec in Hv. rewrite Hsid, Hkey in Hv.
    by destruct Hv.
  - eexists _, _. split; [cbn; by apply (create_room_created _ _ _ _ _ _ _ d)|].
    split; [done|]. split; [done|]. split; [done|]. split; [|done].
    intros H. exfalso. apply violates_unique_false in Hv as [H1 H2].
    rewrite Hsid in H1. rewrite Hkey in H2. by destruct H.
Qed.

(** The schema on records of the right types, and on records that lack a
    required field.  What the library makes of a value of another type is
    not needed below. *)
Hypothesis castString_string : forall s, castString (JStr s) = Some s.
Hypothesis castNumber_number : forall q, castNumber (JNum q) = Some q.
Hypothesis castString_absent : forall v, absent v = true -> castString v = None.
Hypothesis castNumber_absent : forall v, absent v = true -> castNumber v = None.

Lemma cast_typed_record (v : JsValue) :
  typed_record v = true \/ v = JNull -> cast_file v = Some (stored_as v).
Proof.
  intros [Ht| ->]; [|done].
  destruct v as [| | | | |?|fields]; try done.
  unfold typed_record in Ht. unfold cast_FileMetadata, stored_as.
  destruct (lookup_field "originalName" fields) as [| | | |name| |]; try done.
  destruct (lookup_field "fileSize" fields) as [| | |q| | |]; try done.
  destruct (lookup_field "mimeType" fields) as [| | | |mime| |]; try done.
  by rewrite !castString_string, castNumber_number, Ht.
Qed.

Lemma mapM_pointwise {A B} (f : A -> option B) (g : A -> B) (l : list A) :
  Forall (fun x => f x = Some (g x)) l -> mapM f l = Some (g <$> l).
Proof.
  induction 1 as [|x l Hx Hl IH]; [done|]. cbn. rewrite Hx. cbn. by rewrite IH.
Qed.

Lemma cast_lacking_record (v : JsValue) :
  lacks_required v = true -> cast_file v = None.
Proof.
  destruct v as [| | | | |?|fields]; try done. unfold lacks_required, cast_FileMetadata.
  assert (Hs : forall x, absent_or_empty x = true ->
                         castString x = None \/ castString x = Some "").
  { intros x Hx. destruct x as [| | | |s| |]; try done.
    - left. by apply castString_absent.
    - left. by apply castString_absent.
    - right. cbn in Hx. apply String.eqb_eq in Hx as ->. apply castString_string. }
  intros [[H|H]%orb_prop|H]%orb_prop.
  - destruct (Hs _ H) as [->| ->]; [done|].
    destruct (castNumber _); [|done]. by destruct (castString _).
  - rewrite (castNumber_absent _ H). by destruct (castString _).
  - destruct (Hs _ H) as [->| ->].
    + destruct (castString _); [|done]. by destruct (castNumber _).
    + destruct (castString _); [|done]. destruct (castNumber _); [|done].
      by rewrite andb_false_r.
Qed.

Lemma new_room_typed (sid sender key : string) (items : list JsValue) (now : N) :
  Forall (fun v => typed_record v = true \/ v = JNull) items ->
  nonempty sid = true -> nonempty sender = true -> nonempty key = true ->
  new_room sid sender key (JArr items) now =
  Some {| shareId := sid; senderSocketId := sender; receiverSocketIds := [];
          fileMetadata := stored_as <$> items; isWaiting := true; deletionKey := key;
          createdAt := now |}.
Proof.
  intros Hall H1 H2 H3. unfold new_ShareRoom.
  rewrite (mapM_pointwise cast_file stored_as).
  - by rewrite H1, H2, H3.
  - eapply Forall_impl; [exact Hall|]. apply cast_typed_record.
Qed.

Lemma new_room_lacking (sid sender key : string) (items : list JsValue) (now : N) :
  Exists (fun v => lacks_required v = true) items ->
  new_room sid sender key (JArr items) now = None.
Proof.
  intros Hex. unfold new_ShareRoom.
  assert (Hm : mapM cast_file items = None).
  { apply mapM_None. eapply Exists_impl; [exact Hex|]. apply cast_lacking_record. }
  by rewrite Hm.
Qed.


(** C10.  The credentials of a created room are a share id of six symbols
    and a deletion key of ten, all of the generator's alphabet.  They are the
    identifiers that the low six bits of the next sixteen bytes of the random
    pool select, six bytes for the share id and ten for the deletion key, and
    the request after that reads the sixteen bytes that follow.  An identifier
    comes again exactly when all the six-bit values it was made from do: of the
    64^6 patterns of six such values one and only one gives the share id, and
    of the 64^10 patterns of ten one and only one gives the deletion key, so
    with bytes drawn uniformly a share id is repeated with probability 64^-6
    and a deletion key with probability 64^-10.  And the next [create-room]
    that succeeds does return another share id and another deletion key: the
    unique indexes refuse a repeated one. *)
Theorem created_credentials_have_fixed_lengths (w w1 : World) (sock : string) (now : N)
    (payload : JsValue) (sid key : string) :
  step w (CreateRoom sock now payload) = Running w1 [room_created sock sid key] ->
  String.length sid = 6 /\ String.length key = 10 /\
  String.length sid <> String.length key /\
  in_alphabet sid /\ in_alphabet key /\
  sid = id_of (drawn_bits 6 (entropy w) 0) /\
  key = id_of (drawn_bits 10 (entropy w) 6) /\
  (forall i, entropy w1 i = entropy w (16 + i)%nat) /\
  (forall w2 sock2 now2 payload2 sid2 key2,
    step w1 (CreateRoom sock2 now2 payload2) = Running w2 [room_created sock2 sid2 key2] ->
    sid2 <> sid /\ key2 <> key /\
    sid2 = id_of (drawn_bits 6 (entropy w) 16) /\
    key2 = id_of (drawn_bits 10 (entropy w) 22)) /\
  (id_of (drawn_bits 6 (entropy w) 16) = sid <->
   forall k, k < 6 -> N.land (entropy w (16 + k)) 63 = N.land (entropy w k) 63) /\
  (id_of (drawn_bits 10 (entropy w) 22) = key <->
   forall k, k < 10 -> N.land (entropy w (22 + k)) 63 = N.land (entropy w (6 + k)) 63) /\
  (forall bits, bits ∈ patterns 6 ->
     id_of bits = sid <-> bits = drawn_bits 6 (entropy w) 0) /\
  (forall bits, bits ∈ patterns 10 ->
     id_of bits = key <-> bits = drawn_bits 10 (entropy w) 6) /\
  Z.of_nat (length (patterns 6)) = (64 ^ 6)%Z /\
  Z.of_nat (length (patterns 10)) = (64 ^ 10)%Z /\
  length (filter (λ bits, id_of bits = sid) (patterns 6)) = 1 /\
  length (filter (λ bits, id_of bits = key) (patterns 10)) = 1.
Proof.
  intros Hstep. cbn [step] in Hstep.
  destruct (create_room_cases castString castNumber castElement w sock now payload)
    as [(d & Hn & _ & _ & _ & Hrun)|(w' & msg & Hrun & _)];
    rewrite Hrun in Hstep; [|done].
  injection Hstep as <- <- <-.
  destruct (new_ShareRoom_fields _ _ _ _ _ _ _ _ _ Hn) as (Hsid & _ & Hkey & _).
  assert (Hs : drawn_shareId w = id_of (drawn_bits 6 (entropy w) 0))
    by apply nanoid_chars_id_of.
  assert (Hk : drawn_deletionKey w = id_of (drawn_bits 10 (entropy w) 6)).
  { unfold drawn_deletionKey. by rewrite nanoid_chars_id_of. }
  split; [apply nanoid_chars_length|]. split; [apply nanoid_chars_length|].
  split; [unfold drawn_shareId, drawn_deletionKey; by rewrite !nanoid_chars_length|].
  split; [apply nanoid_chars_in_alphabet|]. split; [apply nanoid_chars_in_alphabet|].
  split; [exact Hs|]. split; [exact Hk|].
  split; [intros i; reflexivity|].
  split.
  { intros w2 sock2 now2 payload2 sid2 key2 Hstep2. cbn [step] in Hstep2.
    match type of Hstep2 with run_handler _ ?v = _ => set (w1 := v) in * end.
    destruct (create_room_cases castString castNumber castElement w1 sock2 now2 payload2)
      as [(d2 & Hn2 & _ & _ & Hv2 & Hrun2)|(w' & msg & Hrun2 & _)];
      rewrite Hrun2 in Hstep2; [|done].
    injection Hstep2 as _ <- <-.
    destruct (new_ShareRoom_fields _ _ _ _ _ _ _ _ _ Hn2) as (Hsid2 & _ & Hkey2 & _).
    apply violates_unique_false in Hv2 as [H1 H2].
    rewrite Hsid2 in H1. rewrite Hkey2 in H2.
    assert (Hc : collection w1 = collection w ++ [d]) by done.
    rewrite Hc, fmap_app in H1, H2. cbn [fmap list_fmap] in H1, H2.
    rewrite Hsid in H1. rewrite Hkey in H2.
    split; [|split; [|split]].
    - intros He. apply H1. apply elem_of_app. right. rewrite He. apply list_elem_of_here.
    - intros He. apply H2. apply elem_of_app. right. rewrite He. apply list_elem_of_here.
    - unfold drawn_shareId. by rewrite nanoid_chars_id_of.
    - unfold drawn_deletionKey. by rewrite nanoid_chars_id_of. }
  split; [rewrite Hs, <- !nanoid_chars_id_of; apply nanoid_chars_inj|].
  split; [rewrite Hk, <- !nanoid_chars_id_of; apply nanoid_chars_inj|].
  split.
  { intros bits Hbits. rewrite Hs. split; [|by intros ->].
    apply (id_of_inj 6); [done|apply drawn_bits_pattern]. }
  split.
  { intros bits Hbits. rewrite Hk. split; [|by intros ->].
    apply (id_of_inj 10); [done|apply drawn_bits_pattern]. }
  split; [apply (patterns_count 6)|]. split; [apply (patterns_count 10)|].
  split; [apply one_pattern_per_id|].
  unfold drawn_deletionKey. apply one_pattern_per_id.
Qed.

End CreateClaims.

(** ** The claims at concrete states

    The conversions are the ones for the examples; the states are reached
    from the empty one. *)

Lemma castString_typed_string (s : string) : castString_typed (JStr s) = Some s.
Proof. done. Qed.

Lemma castNumber_typed_number (q : Q) : castNumber_typed (JNum q) = Some q.
Proof. done. Qed.

Lemma castString_typed_absent (v : JsValue) : absent v = true -> castString_typed v = None.
Proof. by destruct v. Qed.

Lemma castNumber_typed_absent (v : JsValue) : absent v = true -> castNumber_typed v = None.
Proof. by destruct v. Qed.

Lemma shared_world_wf : wf shared_world.
Proof. unfold shared_world. apply wf_run, wf_initial. Qed.

Lemma shared_world_collection : collection shared_world = [shared_room].
Proof. vm_compute. reflexivity. Qed.

Lemma shared_world_up : mongoUp shared_world = true.
Proof. vm_compute. reflexivity. Qed.

Lemma shared_world_free : receivers_duplicate_free shared_world.
Proof.
  unfold receivers_duplicate_free. rewrite shared_world_collection.
  apply Forall_singleton. apply NoDup_singleton.
Qed.

(** C1 at [shared_world]: a second join of [B] breaks duplicate-freeness. *)
Lemma repeated_join_at_shared_world :
  wf shared_world /\ receivers_duplicate_free shared_world /\
  ~ receivers_duplicate_free (world_of (typed_step shared_world (JoinRoom "B" (JStr "useand")))).
Proof.
  split; [apply shared_world_wf|]. split; [apply shared_world_free|].
  intros H.
  destruct (duplicates_only_from_repeated_join castString_typed castNumber_typed castElement_typed
              castFilter_typed shared_world (JoinRoom "B" (JStr "useand"))
              shared_world_wf shared_world_free) as [Hjoin _].
  apply (Hjoin "B" "useand" eq_refl) in H.
  apply H. exists shared_room.
  split; [apply shared_world_up|].
  split; [rewrite shared_world_collection; reflexivity|]. apply list_elem_of_here.
Defined.

(** C2 at [shared_world]: the drawn identifiers are free, the room is
    stored. *)
Lemma create_draws_once_at_shared_world :
  invalid_payload (JArr [sample_file]) = false /\
  new_ShareRoom castString_typed castNumber_typed castElement_typed (drawn_shareId shared_world) "C"
    (drawn_deletionKey shared_world) (JArr [sample_file]) 7 = Some next_room /\
  mongoUp shared_world = true /\
  exists w' out,
    typed_step shared_world (CreateRoom "C" 7 (JArr [sample_file])) = Running w' out /\
    out = [room_created "C" "40PX75" "pxJACKVERY"] /\
    collection w' = [shared_room; next_room].
Proof.
  assert (Hn : new_ShareRoom castString_typed castNumber_typed castElement_typed (drawn_shareId shared_world) "C"
                 (drawn_deletionKey shared_world) (JArr [sample_file]) 7 = Some next_room)
    by (vm_compute; reflexivity).
  split; [reflexivity|]. split; [exact Hn|]. split; [apply shared_world_up|].
  destruct (create_draws_once_without_retry castString_typed castNumber_typed castElement_typed castFilter_typed
              shared_world "C" 7 (JArr [sample_file]) next_room eq_refl Hn shared_world_up)
    as (w' & out & Hstep & _ & _ & _ & _ & Hfree).
  exists w', out. split; [exact Hstep|].
  rewrite shared_world_collection in Hfree.
  destruct Hfree as [-> ->]; [compute_done..|].
  split; reflexivity.
Defined.

(** C2, as the claim has it, fails: the second request draws the identifiers
    of the first again and is refused at once, thirty-two bytes of the pool
    are used by the two requests, and the identifiers a further draw gives
    are free, as the third request shows. *)
Lemma colliding_create_fails_without_second_draw :
  deliveries_of (typed_run (initial true repeating_pool)
    [Connect "A"; CreateRoom "A" 0 (JArr [sample_file]);
     CreateRoom "A" 1 (JArr [sample_file])])
  = [room_created "A" "useand" "om-26T1983";
     create_error "A" "Failed to create room on server."] /\
  entropy (world_of (typed_run (initial true repeating_pool)
    [Connect "A"; CreateRoom "A" 0 (JArr [sample_file]);
     CreateRoom "A" 1 (JArr [sample_file])])) 0 = 32%N /\
  deliveries_of (typed_run (initial true repeating_pool)
    [Connect "A"; CreateRoom "A" 0 (JArr [sample_file]);
     CreateRoom "A" 1 (JArr [sample_file]); CreateRoom "A" 2 (JArr [sample_file])])
  = [room_created "A" "useand" "om-26T1983";
     create_error "A" "Failed to create room on server.";
     room_created "A" "MINDBU" "SHWOLF_GQZ"].
Proof.
  split; [vm_compute; reflexivity|]. split; vm_compute; reflexivity.
Qed.


(** C4 at [shared_world]: the sender [A] disconnects. *)
Lemma sender_disconnect_at_shared_world :
  mongoUp shared_world = true /\ wf shared_world /\
  List.find (sent_by "A") (collection shared_world) = Some shared_room /\
  exists w' out,
    typed_step shared_world (Disconnect "A") = Running w' out /\
    out = [closed "B"] /\ collection w' = [] /\
    typed_step w' (JoinRoom "C" (JStr "useand")) = Running w' [not_found "C"].
Proof.
  assert (Hf : List.find (sent_by "A") (collection shared_world) = Some shared_room)
    by (rewrite shared_world_collection; reflexivity).
  split; [apply shared_world_up|]. split; [apply shared_world_wf|]. split; [exact Hf|].
  destruct (sender_disconnect_closes_room castString_typed castNumber_typed castElement_typed castFilter_typed
              shared_world "A" shared_room shared_world_up shared_world_wf Hf)
    as (w' & out & Hstep & Hout & _ & _ & Hlen & Hjoin).
  exists w', out. split; [exact Hstep|]. split; [rewrite Hout; vm_compute; reflexivity|].
  split; [|apply (Hjoin "C")].
  rewrite shared_world_collection in Hlen. by destruct (collection w').
Defined.

(** C5 at [shared_world]: the receiver [B] disconnects. *)
Lemma receiver_disconnect_at_shared_world :
  mongoUp shared_world = true /\
  List.find (sent_by "B") (collection shared_world) = None /\
  exists w',
    typed_step shared_world (Disconnect "B") =
      Running w' [peer_left "B" "A"; peer_left "B" "C"] /\
    receiverSocketIds <$> collection w' = [[]] /\
    shareId <$> collection w' = ["useand"].
Proof.
  assert (Hf : List.find (sent_by "B") (collection shared_world) = None)
    by (rewrite shared_world_collection; reflexivity).
  split; [apply shared_world_up|]. split; [exact Hf|].
  destruct (receiver_disconnect_pulls_everywhere castString_typed castNumber_typed castElement_typed castFilter_typed
              shared_world "B" shared_world_up Hf)
    as (w' & Hstep & Hc & Hids & _).
  exists w'. split; [rewrite Hstep; vm_compute; reflexivity|].
  rewrite Hids, Hc, shared_world_collection. split; vm_compute; reflexivity.
Defined.

(** X14 at [shared_world]: a join for a share id that no room has. *)
Lemma join_unknown_at_shared_world :
  mongoUp shared_world = true /\
  (forall d, d ∈ collection shared_world -> shareId d = "nosuch" -> isWaiting d = false) /\
  typed_step shared_world (JoinRoom "C" (JStr "nosuch")) = Running shared_world [not_found "C"].
Proof.
  assert (Hno : forall d, d ∈ collection shared_world -> shareId d = "nosuch" ->
                          isWaiting d = false).
  { rewrite shared_world_collection. intros d ->%list_elem_of_singleton. discriminate. }
  split; [apply shared_world_up|]. split; [exact Hno|].
  apply (join_unknown_or_closed_not_found castString_typed castNumber_typed castElement_typed castFilter_typed
           shared_world "C" "nosuch" shared_world_up Hno).
Defined.

(** C6 at [shared_world]: [C] sends the operator [{ $ne: "nosuch" }] in the
    place of a share id, and is admitted to the room of [A]. *)
Lemma join_with_operator_at_shared_world :
  (forall sid, any_but_nosuch <> JStr sid) /\
  mongoUp shared_world = true /\
  castFilter_typed any_but_nosuch = Some (fun id => negb (String.eqb id "nosuch")) /\
  collection shared_world = [shared_room] /\
  isWaiting shared_room = true /\
  exists w',
    typed_step shared_world (JoinRoom "C" any_but_nosuch) =
      Running w' [join_success "C" shared_room []] /\
    collection w' = [push_receiver "C" shared_room] /\
    rooms w' = rooms shared_world.
Proof.
  assert (Hv : forall sid, any_but_nosuch <> JStr sid) by discriminate.
  assert (Hr : shared_room ∈ collection shared_world)
    by (rewrite shared_world_collection; apply list_elem_of_here).
  assert (Honly : forall d, d ∈ collection shared_world ->
            negb (String.eqb (shareId d) "nosuch") = true <-> d = shared_room).
  { rewrite shared_world_collection. intros d ->%list_elem_of_singleton. by split. }
  split; [exact Hv|]. split; [apply shared_world_up|]. split; [reflexivity|].
  split; [apply shared_world_collection|]. split; [reflexivity|].
  destruct (join_admits_payload_that_is_no_id castString_typed castNumber_typed
              castElement_typed castFilter_typed shared_world "C" any_but_nosuch
              (fun id => negb (String.eqb id "nosuch")) shared_room
              Hv shared_world_up eq_refl Hr eq_refl Honly)
    as (w' & others & Hstep & _ & Hpush & _ & Hlen & Hobj).
  destruct (Hobj _ eq_refl) as [-> Hrooms].
  exists w'. split; [exact Hstep|]. split; [|exact Hrooms].
  rewrite shared_world_collection in Hlen.
  destruct (collection w') as [|d [|d' l]]; try discriminate Hlen.
  apply list_elem_of_singleton in Hpush. by rewrite Hpush.
Defined.

Lemma two_rooms_world_collection : collection two_rooms_world = [shared_room; second_room].
Proof. vm_compute. reflexivity. Qed.

(** C9 at [two_rooms_world]: the sender of two rooms disconnects; the second
    room stays, with its sender and its receiver. *)
Lemma sender_of_two_rooms_disconnects :
  exists w' out,
    typed_step two_rooms_world (Disconnect "A") = Running w' out /\
    out = [closed "B"] /\
    collection w' = [second_room].
Proof.
  destruct (disconnect_deletes_one_room_only castString_typed castNumber_typed castElement_typed castFilter_typed
              two_rooms_world "A") as (w' & out & Hstep & _ & Hroom).
  exists w', out. split; [exact Hstep|].
  destruct (Hroom shared_room) as (l1 & l2 & Hl & Hl' & Hl1 & _ & Hout & _).
  { vm_compute. reflexivity. }
  { rewrite two_rooms_world_collection. reflexivity. }
  split; [rewrite Hout; vm_compute; reflexivity|].
  rewrite two_rooms_world_collection in Hl. rewrite Hl'.
  destruct l1 as [|a l1].
  - injection Hl as <-. reflexivity.
  - exfalso. injection Hl as <- Hl. apply Forall_cons in Hl1 as [Ha _].
    vm_compute in Ha. discriminate Ha.
Defined.


(** C10 at [fresh_world]: the first room of [A]. *)
Lemma first_credentials_at_fresh_world :
  typed_step fresh_world (CreateRoom "A" 0 (JArr [sample_file]))
    = Running first_room_world [room_created "A" "useand" "om-26T1983"] /\
  String.length "useand" = 6 /\ String.length "om-26T1983" = 10 /\
  in_alphabet "useand" /\ in_alphabet "om-26T1983" /\
  "useand" = id_of [0; 1; 2; 3; 4; 5]%N /\
  "om-26T1983" = id_of [6; 7; 8; 9; 10; 11; 12; 13; 14; 15]%N /\
  entropy first_room_world 0 = 16%N.
Proof.
  assert (Hstep : typed_step fresh_world (CreateRoom "A" 0 (JArr [sample_file]))
                  = Running first_room_world [room_created "A" "useand" "om-26T1983"])
    by (vm_compute; reflexivity).
  split; [exact Hstep|].
  destruct (created_credentials_have_fixed_lengths castString_typed castNumber_typed
              castElement_typed castFilter_typed
              fresh_world first_room_world "A" 0 (JArr [sample_file])
              "useand" "om-26T1983" Hstep)
    as (H6 & H10 & _ & Ha & Hb & Hs & Hk & Hpool & _).
  split; [exact H6|]. split; [exact H10|]. split; [exact Ha|]. split; [exact Hb|].
  split; [exact Hs|]. split; [exact Hk|]. rewrite Hpool. reflexivity.
Defined.

(** ** Which events end the process *)

Section Crashes.

Variable castString : JsValue -> option string.
Variable castNumber : JsValue -> option Q.
Variable castElement : JsValue -> option (option FileMetadata).
Variable castFilter : JsValue -> option (string -> bool).

Local Abbreviation step := (step castString castNumber castElement castFilter).

(** X8.  The handlers with a [try]/[catch] around their body always return:
    an event ends the process only when it is a relay whose payload is
    [undefined] or [null]; the exception is then a [TypeError], nothing has
    been sent and the state is as before. *)
Lemma crash_only_in_relay (w w' : World) (e : Event) (err : JsError) (out : list Delivery) :
  step w e = Crashed err w' out ->
  err = TypeError /\ w' = w /\ out = [] /\
  exists k sock data, e = relay_event k sock data /\ (data = JUndefined \/ data = JNull).
Proof.
  assert (Hrelay : forall k sock data,
            run_handler (relay (relay_field k) (relay_forwarded k) sock data) w
              = Crashed err w' out ->
            err = TypeError /\ w' = w /\ out = [] /\
            exists k' sock' data', relay_event k sock data = relay_event k' sock' data' /\
                                   (data' = JUndefined \/ data' = JNull)).
  { intros k sock data. unfold run_handler, relay, bind.
    destruct data as [| | | | | |fields]; cbn;
      try discriminate; try (destruct (truthy _); discriminate).
    - intros [= <- <- <-]. repeat split; try done. exists k, sock, JUndefined. by split; [|left].
    - intros [= <- <- <-]. repeat split; try done. exists k, sock, JNull. by split; [|right]. }
  destruct e as [sock|sock now payload|sock sid|sock data|sock data|sock data|sock]; cbn.
  - done.
  - destruct (create_room_cases castString castNumber castElement w sock now payload)
      as [(d & _ & _ & _ & _ & ->)|(v & msg & -> & _)]; done.
  - by destruct (join_room_cases castFilter w sock sid)
      as [-> | [-> | (p & r & _ & _ & _ & ->)]].
  - apply (Hrelay Offer).
  - apply (Hrelay Answer).
  - apply (Hrelay IceCandidate).
  - destruct (mongoUp w) eqn:Hup; [|by rewrite disconnect_store_down].
    destruct (List.find (sent_by sock) (collection w)) as [r|] eqn:Hf.
    + by rewrite (disconnect_sender _ _ r).
    + by rewrite disconnect_receiver.
Qed.

End Crashes.

(** ** The room of a connected socket

    Socket ids are given by the transport and are not six symbols long, as
    the share ids are.  As long as the joins come with a string as payload,
    the room named by the id of a connected socket holds that socket and no
    other, so an event sent to it reaches that socket alone. *)

Lemma elem_of_set_add (x s : string) (l : list string) :
  x ∈ set_add s l <-> x = s \/ x ∈ l.
Proof.
  unfold set_add. case_decide as Hin.
  - split; [by right|]. by intros [->|?].
  - rewrite elem_of_app, list_elem_of_singleton. tauto.
Qed.

Lemma members_joined (sock room r : string) (w : World) :
  members (joined sock room w) r =
  if decide (room = r) then set_add sock (members w room) else members w r.
Proof.
  unfold members at 1. unfold joined. cbn. rewrite lookup_insert.
  destruct (decide (room = r)) as [->|Hne].
  - by rewrite decide_True.
  - rewrite decide_False; [done|]. by intros [= ?].
Qed.

Lemma channels_ok_fields (w w' : World) :
  collection w' = collection w -> rooms w' = rooms w -> connected w' = connected w ->
  channels_ok w -> channels_ok w'.
Proof.
  intros Hc Hr Hk [H1 H2 H3]. unfold members in *.
  split; unfold members; by rewrite ?Hc, ?Hr, ?Hk.
Qed.

Lemma channels_ok_joined (sock room : string) (c : list ShareRoom) (w : World) :
  Forall (λ s, String.length s = 6) (shareId <$> c) ->
  (String.length room <> 6 -> sock = room) ->
  channels_ok w -> channels_ok (set_collection c (joined sock room w)).
Proof.
  intros Hc Hroom [H1 H2 H3]. split.
  - done.
  - intros s Hs.
    change (s ∈ members (joined sock room w) s). rewrite members_joined.
    specialize (H2 s Hs). case_decide as He; [|done].
    subst. apply elem_of_set_add. by right.
  - intros r x Hr.
    change (x ∈ members (joined sock room w) r -> x = r). rewrite members_joined.
    case_decide as He; [|by apply H3]. subst.
    intros [->|Hx]%elem_of_set_add; [by apply Hroom|by apply H3].
Qed.

Lemma channels_ok_leave_all (sock : string) (c : list ShareRoom) (w : World) :
  Forall (λ s, String.length s = 6) (shareId <$> c) ->
  channels_ok w -> channels_ok (set_collection c (leave_all sock w)).
Proof.
  intros Hc [H1 H2 H3]. split.
  - done.
  - intros s [Hne Hs]%list_elem_of_filter.
    change (s ∈ members (leave_all sock w) s). rewrite members_leave_all.
    apply list_elem_of_filter. split; [done|by apply H2].
  - intros r x Hr.
    change (x ∈ members (leave_all sock w) r -> x = r). rewrite members_leave_all.
    intros [_ Hx]%list_elem_of_filter. by apply H3.
Qed.

Lemma remove_first_ids (p : ShareRoom -> bool) (l : list ShareRoom) (P : string -> Prop) :
  Forall P (shareId <$> l) -> Forall P (shareId <$> remove_first p l).
Proof.
  rewrite !Forall_fmap, !Forall_forall. intros H d Hd%remove_first_elem. by apply H.
Qed.

Section Channels.

Variable castString : JsValue -> option string.
Variable castNumber : JsValue -> option Q.
Variable castElement : JsValue -> option (option FileMetadata).
Variable castFilter : JsValue -> option (string -> bool).

Local Abbreviation step := (step castString castNumber castElement castFilter).
Local Abbreviation run := (run castString castNumber castElement castFilter).

Lemma channels_ok_initial (up : bool) (pool : nat -> N) : channels_ok (initial up pool).
Proof.
  split; cbn.
  - apply Forall_nil_2.
  - by intros s ?%elem_of_nil.
  - intros r x _. unfold members. cbn. rewrite lookup_empty. by intros ?%elem_of_nil.
Qed.

Lemma channels_ok_step (w : World) (e : Event) :
  joins_by_id e = true -> channels_ok w -> channels_ok (world_of (step w e)).
Proof.
  intros Hplain Hw.
  destruct e as [sock|sock now payload|sock v|sock data|sock data|sock data|sock]; cbn.
  - destruct Hw as [H1 H2 H3]. unfold connect.
    set (w0 := set_connected (set_add sock (connected w)) w).
    assert (Hm : forall r, members w0 r = members w r) by done.
    split.
    + done.
    + intros s Hs. rewrite members_joined, !Hm.
      case_decide as He; [subst; apply elem_of_set_add; by left|].
      apply H2. change (s ∈ set_add sock (connected w)) in Hs.
      apply elem_of_set_add in Hs as [->|Hs]; done.
    + intros r x Hr. rewrite members_joined, !Hm.
      case_decide as He; [|by apply H3]. subst.
      intros [->|Hx]%elem_of_set_add; [done|by apply H3].
  - destruct (create_room_cases castString castNumber castElement w sock now payload)
      as [(d & Hn & Hi & Hup & Hv & ->)|(w' & msg & -> & Hc & Hr & Hk & _)]; cbn.
    + apply (channels_ok_joined sock (drawn_shareId w) (collection w ++ [d]) (after_draws w)).
      * rewrite fmap_app. apply Forall_app. split; [apply Hw|].
        apply Forall_singleton.
        apply new_ShareRoom_fields in Hn as (-> & _). apply nanoid_chars_length.
      * intros Hlen. exfalso. apply Hlen. apply nanoid_chars_length.
      * by apply (channels_ok_fields w).
    + by apply (channels_ok_fields w).
  - destruct v as [| | | |sid| |]; try discriminate Hplain.
    destruct (mongoUp w) eqn:Hup; [|by rewrite join_room_store_down].
    destruct (List.find (open_room sid) (collection w)) as [r|] eqn:Hf.
    + rewrite (join_room_found _ _ _ _ r) by done. cbn.
      apply channels_ok_joined; [| |done].
      * rewrite update_first_proj by done. apply Hw.
      * intros Hlen. exfalso. apply Hlen.
        destruct (find_open_room _ _ _ Hf) as [Hin <-].
        pose proof (ids_six w Hw) as Hall. rewrite Forall_fmap, Forall_forall in Hall.
        by apply Hall.
    + by rewrite join_room_not_found.
  - unfold webrtc_offer. by rewrite relay_keeps_world.
  - unfold webrtc_answer. by rewrite relay_keeps_world.
  - unfold webrtc_ice_candidate. by rewrite relay_keeps_world.
  - destruct (mongoUp w) eqn:Hup.
    2:{ rewrite disconnect_store_down by done.
        apply (channels_ok_leave_all sock (collection w) w); [apply Hw|done]. }
    destruct (List.find (sent_by sock) (collection w)) as [r|] eqn:Hf.
    + rewrite (disconnect_sender _ _ r) by done. cbn.
      apply channels_ok_leave_all; [|done]. apply remove_first_ids, Hw.
    + rewrite disconnect_receiver by done. cbn.
      apply channels_ok_leave_all; [|done]. rewrite fmap_proj by done. apply Hw.
Qed.

End Channels.

Section OwnRoom.

Variable castString : JsValue -> option string.
Variable castNumber : JsValue -> option Q.
Variable castElement : JsValue -> option (option FileMetadata).
Variable castFilter : JsValue -> option (string -> bool).

Local Abbreviation run := (run castString castNumber castElement castFilter).

Lemma channels_ok_run (es : list Event) (w : World) :
  Forall (λ e, joins_by_id e = true) es ->
  channels_ok w -> channels_ok (world_of (run w es)).
Proof.
  intros Hes. revert w. induction Hes as [|e es He Hes IH]; intros w Hw; [done|]. cbn.
  pose proof (channels_ok_step castString castNumber castElement castFilter w e He Hw) as Hs.
  destruct (step castString castNumber castElement castFilter w e) as [w1 out1|err w1 out1];
    cbn in Hs; [|done].
  specialize (IH w1 Hs). by destruct (run w1 es).
Qed.

End OwnRoom.

Lemma own_room_is_singleton (w : World) (t : string) :
  wf w -> channels_ok w -> t ∈ connected w -> String.length t <> 6 ->
  members w t = [t].
Proof.
  intros Hw [_ H2 H3] Ht Hlen.
  pose proof (wf_members w t Hw) as Hnd. specialize (H2 t Ht).
  pose proof (H3 t) as Hall.
  destruct (members w t) as [|x l]; [by apply elem_of_nil in H2|].
  assert (x = t) as -> by (apply Hall; [done|apply list_elem_of_here]).
  destruct l as [|y l]; [done|]. exfalso.
  assert (y = t) as -> by (apply Hall; [done|apply list_elem_of_further, list_elem_of_here]).
  apply NoDup_cons in Hnd as [Hin _]. apply Hin, list_elem_of_here.
Qed.

Section RelayTargets.

Variable castString : JsValue -> option string.
Variable castNumber : JsValue -> option Q.
Variable castElement : JsValue -> option (option FileMetadata).
Variable castFilter : JsValue -> option (string -> bool).

Local Abbreviation step := (step castString castNumber castElement castFilter).


End RelayTargets.



(** * Further properties of the handlers *)

Lemma update_first_elem (p : ShareRoom -> bool) (f : ShareRoom -> ShareRoom)
    (l : list ShareRoom) (d' : ShareRoom) :
  d' ∈ update_first p f l -> d' ∈ l \/ exists d, d ∈ l /\ p d = true /\ d' = f d.
Proof.
  induction l as [|a l IH]; cbn; [by intros ?%elem_of_nil|]. destruct (p a) eqn:Hp.
  - intros [->|Hin]%elem_of_cons.
    + right. exists a. split; [apply list_elem_of_here|done].
    + left. by apply list_elem_of_further.
  - intros [->|Hin]%elem_of_cons; [left; apply list_elem_of_here|].
    destruct (IH Hin) as [H|(d & Hd & Hpd & ->)].
    + left. by apply list_elem_of_further.
    + right. exists d. split; [by apply list_elem_of_further|done].
Qed.

Lemma find_unique_open (l : list ShareRoom) (d : ShareRoom) :
  NoDup (shareId <$> l) -> d ∈ l -> isWaiting d = true ->
  List.find (open_room (shareId d)) l = Some d.
Proof.
  intros Hnd Hin Hw.
  destruct (List.find (open_room (shareId d)) l) as [d0|] eqn:Hf.
  - destruct (find_open_room _ _ _ Hf) as [Hin0 He].
    f_equal. by apply (unique_by_shareId l).
  - exfalso. apply find_none with (x := d) in Hf; [|by apply list_elem_of_In].
    unfold open_room in Hf. by rewrite String.eqb_refl, Hw in Hf.
Qed.

Lemma filter_set_add (sock : string) (l : list string) :
  filter (λ x, x ≠ sock) (set_add sock l) = filter (λ x, x ≠ sock) l.
Proof.
  unfold set_add. case_decide; [done|].
  rewrite filter_app, filter_cons, decide_False by (intros H'; by apply H').
  by rewrite filter_nil, app_nil_r.
Qed.

Section Reachable.

Variable castString : JsValue -> option string.
Variable castNumber : JsValue -> option Q.
Variable castElement : JsValue -> option (option FileMetadata).
Variable castFilter : JsValue -> option (string -> bool).

Local Abbreviation step := (step castString castNumber castElement castFilter).
Local Abbreviation run := (run castString castNumber castElement castFilter).
Local Abbreviation state_after := (reached castString castNumber castElement castFilter).

Lemma step_mongoUp (w : World) (e : Event) : mongoUp (world_of (step w e)) = mongoUp w.
Proof.
  destruct e as [sock|sock now payload|sock sid|sock data|sock data|sock data|sock]; cbn.
  - done.
  - destruct (create_room_cases castString castNumber castElement w sock now payload)
      as [(d & _ & _ & _ & _ & ->)|(w' & msg & -> & _ & _ & _ & Hup)]; done.
  - destruct (join_room_cases castFilter w sock sid)
      as [-> | [-> | (p & r & _ & _ & _ & ->)]]; try done.
    cbn. apply joined_all_fields.
  - unfold webrtc_offer. by rewrite relay_keeps_world.
  - unfold webrtc_answer. by rewrite relay_keeps_world.
  - unfold webrtc_ice_candidate. by rewrite relay_keeps_world.
  - destruct (mongoUp w) eqn:Hup; [|by rewrite disconnect_store_down].
    destruct (List.find (sent_by sock) (collection w)) as [r|] eqn:Hf.
    + by rewrite (disconnect_sender _ _ r).
    + by rewrite disconnect_receiver.
Qed.

Lemma run_mongoUp (es : list Event) (w : World) : mongoUp (world_of (run w es)) = mongoUp w.
Proof.
  revert w. induction es as [|e es IH]; intros w; [done|]. cbn.
  pose proof (step_mongoUp w e) as Hs.
  destruct (step w e) as [w1 out1|err w1 out1]; cbn in Hs; [|done].
  specialize (IH w1). destruct (run w1 es); cbn in *; congruence.
Qed.

(** An invariant of the events is an invariant of the runs. *)
Lemma run_invariant (P : World -> Prop) :
  (forall w e, P w -> P (world_of (step w e))) ->
  forall es w, P w -> P (world_of (run w es)).
Proof.
  intros Hstep es. induction es as [|e es IH]; intros w Hw; [done|]. cbn.
  pose proof (Hstep w e Hw) as Hs.
  destruct (step w e) as [w1 out1|err w1 out1]; cbn in Hs; [|done].
  specialize (IH w1 Hs). by destruct (run w1 es).
Qed.

(** X1.  In every state the server reaches, no two rooms of the collection
    have the same share id or the same deletion key, and the connected
    sockets and the members of every channel are listed once. *)
Theorem reachable_states_keep_ids_unique (up : bool) (pool : nat -> N) (es : list Event) :
  NoDup (shareId <$> collection (world_of (run (initial up pool) es))) /\
  NoDup (deletionKey <$> collection (world_of (run (initial up pool) es))) /\
  NoDup (connected (world_of (run (initial up pool) es))) /\
  forall room, NoDup (members (world_of (run (initial up pool) es)) room).
Proof.
  pose proof (wf_run castString castNumber castElement castFilter es (initial up pool)
                (wf_initial up pool)) as Hw.
  split; [apply Hw|]. split; [apply Hw|]. split; [apply Hw|].
  intros room. by apply wf_members.
Qed.

Lemma step_keeps_waiting (w : World) (e : Event) :
  Forall (fun d => isWaiting d = true) (collection w) ->
  Forall (fun d => isWaiting d = true) (collection (world_of (step w e))).
Proof.
  intros Hall.
  destruct e as [sock|sock now payload|sock sid|sock data|sock data|sock data|sock]; cbn.
  - done.
  - destruct (create_room_cases castString castNumber castElement w sock now payload)
      as [(d & Hn & _ & _ & _ & ->)|(w' & msg & -> & Hc & _)]; cbn.
    + apply Forall_app. split; [done|]. apply Forall_singleton.
      by apply new_ShareRoom_fields in Hn as (_ & _ & _ & _ & -> & _).
    + by rewrite Hc.
  - destruct (join_room_cases castFilter w sock sid)
      as [-> | [-> | (p & r & _ & _ & _ & ->)]]; try done. cbn.
    apply Forall_forall. rewrite Forall_forall in Hall.
    intros d' [Hd|(d & Hd & _ & ->)]%update_first_elem; [by apply Hall|].
    cbn. by apply Hall.
  - unfold webrtc_offer. by rewrite relay_keeps_world.
  - unfold webrtc_answer. by rewrite relay_keeps_world.
  - unfold webrtc_ice_candidate. by rewrite relay_keeps_world.
  - destruct (mongoUp w) eqn:Hup; [|by rewrite disconnect_store_down].
    destruct (List.find (sent_by sock) (collection w)) as [r|] eqn:Hf.
    + rewrite (disconnect_sender _ _ r) by done. cbn.
      apply Forall_forall. rewrite Forall_forall in Hall.
      intros d Hd%remove_first_elem. by apply Hall.
    + rewrite disconnect_receiver by done. cbn.
      rewrite Forall_fmap. eapply Forall_impl; [exact Hall|]. done.
Qed.

(** X2.  No handler ever clears [isWaiting]: in every state reached with the
    store answering, each room of the collection is waiting, and a join for
    its share id succeeds, whoever asks: the joiner gets [join-success] with
    the files of that room. *)
Theorem existing_rooms_stay_joinable (pool : nat -> N) (es : list Event)
    (d : ShareRoom) (joiner : string) :
  d ∈ collection (state_after pool es) ->
  isWaiting d = true /\
  exists w' others,
    step (state_after pool es) (JoinRoom joiner (JStr (shareId d))) =
    Running w' (join_success joiner d others :: (new_peer_joined joiner <$> others)).
Proof.
  intros Hin.
  assert (Hw : wf (state_after pool es))
    by apply (wf_run castString castNumber castElement castFilter es _ (wf_initial true pool)).
  assert (Hup : mongoUp (state_after pool es) = true) by apply run_mongoUp.
  assert (Hwait : isWaiting d = true).
  { assert (Hall : Forall (fun d => isWaiting d = true) (collection (state_after pool es))).
    { apply (run_invariant (fun w => Forall (fun d => isWaiting d = true) (collection w)));
        [apply step_keeps_waiting|]. apply Forall_nil_2. }
    rewrite Forall_forall in Hall. by apply Hall. }
  split; [done|]. eexists _, _. cbn.
  apply join_room_found; [done|]. apply find_unique_open; [apply Hw|done..].
Qed.

(** X3.  An event changes nothing of a room but its list of receivers: every
    room of the collection after the event is a room of the collection
    before, with the same share id, sender, files, deletion key and creation
    time, and with the same receivers, or one more (the socket of a join
    whose payload selects the room; when the payload is a string, the room
    has it as share id), or without the socket of a disconnect; or else it is
    the room the event created, for the socket of the event and without
    receivers. *)
Theorem event_changes_receivers_only (w : World) (e : Event) (d' : ShareRoom) :
  d' ∈ collection (world_of (step w e)) ->
  (exists d, d ∈ collection w /\ same_room d d' /\
     (receiverSocketIds d' = receiverSocketIds d \/
      (exists sock v selected, e = JoinRoom sock v /\
         cast_shareId castFilter v = Some selected /\ selected (shareId d) = true /\
         (forall sid, v = JStr sid -> shareId d = sid) /\
         receiverSocketIds d' = receiverSocketIds d ++ [sock]) \/
      (exists sock, e = Disconnect sock /\
         receiverSocketIds d' = filter (λ x, x ≠ sock) (receiverSocketIds d)))) \/
  (exists sock now payload, e = CreateRoom sock now payload /\
     senderSocketId d' = sock /\ receiverSocketIds d' = [] /\
     isWaiting d' = true /\ createdAt d' = now).
Proof.
  assert (Hsame : forall d, d ∈ collection w ->
            exists d0, d0 ∈ collection w /\ same_room d0 d /\
              (receiverSocketIds d = receiverSocketIds d0 \/
               (exists sock v selected, e = JoinRoom sock v /\
                  cast_shareId castFilter v = Some selected /\
                  selected (shareId d0) = true /\
                  (forall sid, v = JStr sid -> shareId d0 = sid) /\
                  receiverSocketIds d = receiverSocketIds d0 ++ [sock]) \/
               (exists sock, e = Disconnect sock /\
                  receiverSocketIds d = filter (λ x, x ≠ sock) (receiverSocketIds d0)))).
  { intros d Hd. exists d. split; [done|]. split; [by repeat split|by left]. }
  destruct e as [sock|sock now payload|sock v|sock data|sock data|sock data|sock]; cbn.
  - intros Hd. left. by apply Hsame.
  - destruct (create_room_cases castString castNumber castElement w sock now payload)
      as [(d & Hn & _ & _ & _ & ->)|(w' & msg & -> & Hc & _)]; cbn.
    + intros [Hd| ->%list_elem_of_singleton]%elem_of_app; [left; by apply Hsame|].
      right. exists sock, now, payload.
      apply new_ShareRoom_fields in Hn as (_ & ? & _ & ? & ? & ?). done.
    + rewrite Hc. intros Hd. left. by apply Hsame.
  - destruct (join_room_cases castFilter w sock v)
      as [-> | [-> | (p & r & Hup & Hc & Hf & ->)]]; cbn;
      [intros Hd; left; by apply Hsame..|].
    intros [Hd|(d & Hd & Hp & ->)]%update_first_elem; [left; by apply Hsame|].
    left. exists d. split; [done|]. split; [by repeat split|].
    right. left. exists sock, v, p. split; [done|]. split; [done|]. split; [done|].
    split; [|done]. intros sid ->. injection Hc as <-. by apply String.eqb_eq.
  - unfold webrtc_offer. rewrite relay_keeps_world. intros Hd. left. by apply Hsame.
  - unfold webrtc_answer. rewrite relay_keeps_world. intros Hd. left. by apply Hsame.
  - unfold webrtc_ice_candidate. rewrite relay_keeps_world. intros Hd. left. by apply Hsame.
  - destruct (mongoUp w) eqn:Hup.
    2:{ rewrite disconnect_store_down by done. intros Hd. left. by apply Hsame. }
    destruct (List.find (sent_by sock) (collection w)) as [r|] eqn:Hf.
    + rewrite (disconnect_sender _ _ r) by done. cbn.
      intros Hd%remove_first_elem. left. by apply Hsame.
    + rewrite disconnect_receiver by done. cbn.
      intros (d & -> & Hd)%list_elem_of_fmap. left. exists d.
      split; [done|]. split; [by repeat split|]. right. right. by exists sock.
Qed.

End Reachable.

Lemma find_app_last (p : ShareRoom -> bool) (l : list ShareRoom) (d : ShareRoom) :
  (forall x, x ∈ l -> p x = false) -> p d = true -> List.find p (l ++ [d]) = Some d.
Proof.
  intros Hl Hd. induction l as [|a l IH]; cbn; [by rewrite Hd|].
  rewrite (Hl a) by apply list_elem_of_here.
  apply IH. intros x Hx. apply Hl. by apply list_elem_of_further.
Qed.

Lemma update_first_app_last (p : ShareRoom -> bool) (f : ShareRoom -> ShareRoom)
    (l : list ShareRoom) (d : ShareRoom) :
  (forall x, x ∈ l -> p x = false) -> p d = true ->
  update_first p f (l ++ [d]) = l ++ [f d].
Proof.
  intros Hl Hd. induction l as [|a l IH]; cbn; [by rewrite Hd|].
  rewrite (Hl a) by apply list_elem_of_here. f_equal.
  apply IH. intros x Hx. apply Hl. by apply list_elem_of_further.
Qed.

Lemma push_then_pull (sock : string) (d : ShareRoom) :
  sock ∉ receiverSocketIds d -> pull_receiver sock (push_receiver sock d) = d.
Proof.
  intros H. unfold pull_receiver, push_receiver. cbn [receiverSocketIds].
  rewrite filter_app, filter_ne_absent by done.
  rewrite filter_cons, decide_False by (intros H'; by apply H').
  rewrite filter_nil, app_nil_r. by destruct d.
Qed.

Section Sessions2.

Variable castString : JsValue -> option string.
Variable castNumber : JsValue -> option Q.
Variable castElement : JsValue -> option (option FileMetadata).
Variable castFilter : JsValue -> option (string -> bool).

Local Abbreviation step := (step castString castNumber castElement castFilter).

(** X4.  A join with the share id of a waiting room answers the joiner with
    [join-success]: the files of the room as stored, and as peers the sockets
    that are in the channel of the room, the joiner left out.  Each of these
    peers, and no other socket, gets [new-peer-joined] once, naming the
    joiner.  The joiner is in the channel afterwards; no other channel
    changes. *)
Theorem join_tells_joiner_and_peers (w : World) (sock sid : string) (r : ShareRoom) :
  mongoUp w = true ->
  wf w ->
  List.find (open_room sid) (collection w) = Some r ->
  exists w',
    step w (JoinRoom sock (JStr sid)) =
      Running w' (join_success sock r (filter (λ x, x ≠ sock) (members w sid))
                  :: (new_peer_joined sock <$> filter (λ x, x ≠ sock) (members w sid))) /\
    (forall c,
       length (filter (λ dl, dest dl = c)
                 (new_peer_joined sock <$> filter (λ x, x ≠ sock) (members w sid)))
       = if decide (c ∈ members w sid /\ c ≠ sock) then 1 else 0) /\
    members w' sid = set_add sock (members w sid) /\
    (forall room, room <> sid -> members w' room = members w room) /\
    (forall k, k <> KStr sid -> key_members w' k = key_members w k) /\
    connected w' = connected w.
Proof.
  intros Hup Hw Hf. eexists. split.
  { cbn. rewrite (join_room_found _ _ _ _ r) by done. by rewrite filter_set_add. }
  split.
  { intros c. rewrite deliveries_once; [|done|by apply NoDup_filter, wf_members].
    destruct (decide (c ∈ filter (λ x, x ≠ sock) (members w sid))) as [Hin|Hin].
    - apply list_elem_of_filter in Hin as [? ?]. by rewrite decide_True.
    - rewrite decide_False; [done|]. intros [? ?]. apply Hin. by apply list_elem_of_filter. }
  split; [|split; [|split; [|done]]].
  - change (members (joined sock sid w) sid = set_add sock (members w sid)).
    rewrite members_joined. by rewrite decide_True.
  - intros room Hne.
    change (members (joined sock sid w) room = members w room).
    rewrite members_joined. by rewrite decide_False.
  - intros k Hne. unfold key_members. cbn. by rewrite lookup_insert_ne.
Qed.

(** X5.  Join, then leave: when a socket that is the sender of no room and
    is listed by no room joins a room and then disconnects, the collection is
    as it was before the join, and every channel is as before without that
    socket. *)
Theorem join_then_disconnect_restores_collection (w : World) (sock sid : string)
    (r : ShareRoom) :
  mongoUp w = true ->
  wf w ->
  List.find (open_room sid) (collection w) = Some r ->
  List.find (sent_by sock) (collection w) = None ->
  (forall d, d ∈ collection w -> sock ∉ receiverSocketIds d) ->
  exists w1 out1 w2 out2,
    step w (JoinRoom sock (JStr sid)) = Running w1 out1 /\
    step w1 (Disconnect sock) = Running w2 out2 /\
    collection w2 = collection w /\
    forall room, members w2 room = filter (λ x, x ≠ sock) (members w room).
Proof.
  intros Hup Hw Hf Hs Hno.
  set (w1 := set_collection (update_first (has_shareId sid) (push_receiver sock) (collection w))
               (joined sock sid w)).
  assert (Hs1 : List.find (sent_by sock) (collection w1) = None).
  { apply find_None_intro. intros d' [Hd|(d & Hd & _ & ->)]%update_first_elem.
    - apply find_none with (x := d') in Hs; [done|by apply list_elem_of_In].
    - apply find_none with (x := d) in Hs; [done|by apply list_elem_of_In]. }
  exists w1. eexists. eexists. eexists.
  split; [cbn; by apply (join_room_found _ _ _ _ r)|].
  split; [cbn; by apply (disconnect_receiver w1)|].
  split.
  - rewrite collection_set_collection. unfold w1. rewrite collection_set_collection.
    rewrite update_first_unique by apply Hw.
    rewrite <- list_fmap_compose. rewrite <- (list_fmap_id (collection w)) at 2.
    apply list_fmap_ext. intros _ d Hd%list_elem_of_lookup_2. cbn.
    destruct (has_shareId sid d).
    + by apply push_then_pull, Hno.
    + by apply pull_receiver_absent, Hno.
  - intros room.
    change (members (leave_all sock (joined sock sid w)) room
            = filter (λ x, x ≠ sock) (members w room)).
    rewrite members_leave_all, members_joined.
    case_decide as He; [|done]. subst. apply filter_set_add.
Qed.

(** X6.  A [create-room] sends one event, to the socket that asked and to no
    other.  When it is [room-created], one room has been added to the
    collection: it has the drawn share id and deletion key, which are the
    ones sent, the asking socket as sender, no receivers, is waiting and has
    the time of the request; the socket is in the channel of the room and no
    other channel has changed.  When it is [create-room-error], the collection
    and the channels are as before. *)
Theorem create_answers_its_socket_only (w : World) (sock : string) (now : N)
    (payload : JsValue) :
  exists w' dl,
    step w (CreateRoom sock now payload) = Running w' [dl] /\
    dest dl = sock /\
    ((exists d,
        dl = room_created sock (shareId d) (deletionKey d) /\
        collection w' = collection w ++ [d] /\
        shareId d = drawn_shareId w /\ deletionKey d = drawn_deletionKey w /\
        senderSocketId d = sock /\ receiverSocketIds d = [] /\
        isWaiting d = true /\ createdAt d = now /\
        members w' (shareId d) = set_add sock (members w (shareId d)) /\
        forall room, room <> shareId d -> members w' room = members w room) \/
     (exists msg,
        dl = create_error sock msg /\
        collection w' = collection w /\ rooms w' = rooms w)).
Proof.
  destruct (create_room_cases castString castNumber castElement w sock now payload)
    as [(d & Hn & _ & _ & _ & Hrun)|(w' & msg & Hrun & Hc & Hr & _)].
  - eexists _, _. split; [exact Hrun|]. split; [done|]. left. exists d.
    destruct (new_ShareRoom_fields _ _ _ _ _ _ _ _ _ Hn) as (Hsid & Hsnd & Hkey & Hrs & Hw & Hat).
    rewrite Hsid, Hkey. repeat split; try done.
    + rewrite members_joined. by rewrite decide_True.
    + intros room Hne. rewrite members_joined. by rewrite decide_False.
  - eexists _, _. split; [exact Hrun|]. split; [done|]. right. by exists msg.
Qed.

(** X7.  Create, then join: the share id that [room-created] carries can be
    joined right away, by any socket.  The joiner gets the room of the
    creator, with the creator among its peers when it is another socket, and
    is the one receiver the room lists afterwards. *)
Theorem created_room_can_be_joined (w w1 : World) (sock joiner sid key : string)
    (now : N) (payload : JsValue) :
  step w (CreateRoom sock now payload) = Running w1 [room_created sock sid key] ->
  exists w2 d peers,
    step w1 (JoinRoom joiner (JStr sid)) =
      Running w2 (join_success joiner d peers :: (new_peer_joined joiner <$> peers)) /\
    shareId d = sid /\ senderSocketId d = sock /\ deletionKey d = key /\
    (joiner <> sock -> sock ∈ peers) /\
    collection w2 = collection w ++ [push_receiver joiner d] /\
    receiverSocketIds (push_receiver joiner d) = [joiner].
Proof.
  cbn. intros Hstep.
  destruct (create_room_cases castString castNumber castElement w sock now payload)
    as [(d & Hn & _ & Hup & Hv & Hrun)|(w' & msg & Hrun & _)];
    rewrite Hrun in Hstep; [|done].
  injection Hstep as <- <- <-.
  destruct (new_ShareRoom_fields _ _ _ _ _ _ _ _ _ Hn) as (Hsid & Hsnd & Hkey & Hrs & Hw & _).
  apply violates_unique_false in Hv as [Hfresh _].
  assert (Hold : forall x, x ∈ collection w -> String.eqb (shareId x) (drawn_shareId w) = false).
  { intros x Hx. apply String.eqb_neq. intros He. apply Hfresh.
    rewrite Hsid, <- He. by apply list_elem_of_fmap_2. }
  set (w1 := joined sock (drawn_shareId w) (set_collection (collection w ++ [d]) (after_draws w))).
  assert (Hf : List.find (open_room (drawn_shareId w)) (collection w1) = Some d).
  { apply find_app_last.
    - intros x Hx. unfold open_room. by rewrite (Hold x Hx).
    - unfold open_room. by rewrite Hsid, String.eqb_refl, Hw. }
  eexists _, d, _. split; [by apply (join_room_found _ w1)|].
  split; [done|]. split; [done|]. split; [done|]. split; [|split].
  - intros Hne. apply list_elem_of_filter. split; [congruence|].
    apply elem_of_set_add. right.
    change (sock ∈ members (joined sock (drawn_shareId w)
                     (set_collection (collection w ++ [d]) (after_draws w))) (drawn_shareId w)).
    rewrite members_joined, decide_True by done. apply elem_of_set_add. by left.
  - rewrite collection_set_collection.
    change (collection w1) with (collection w ++ [d]).
    apply update_first_app_last; [exact Hold|].
    unfold has_shareId. by rewrite Hsid, String.eqb_refl.
  - cbn. by rewrite Hrs.
Qed.

End Sessions2.

Section Edges.

Variable castString : JsValue -> option string.
Variable castNumber : JsValue -> option Q.
Variable castElement : JsValue -> option (option FileMetadata).
Variable castFilter : JsValue -> option (string -> bool).

Local Abbreviation step := (step castString castNumber castElement castFilter).
Local Abbreviation run := (run castString castNumber castElement castFilter).

(** X9.  A relay changes neither the collection nor the channels, whatever
    its payload, and what it forwards always carries the id of the socket it
    came from as [senderSocketId], beside the payload property read from the
    message: a [senderSocketId] written into the payload is never used. *)
Theorem relay_is_stateless_and_tags_its_sender (k : RelayKind) (w : World) (sock : string)
    (data : JsValue) :
  world_of (step w (relay_event k sock data)) = w /\
  Forall (fun dl =>
            event dl = relay_forwarded k /\
            exists body, get_prop data (relay_field k) = inr body /\
                         args dl = [JObj [(relay_field k, body); ("senderSocketId", JStr sock)]])
         (deliveries_of (step w (relay_event k sock data))).
Proof.
  rewrite step_relay. split; [apply relay_keeps_world|].
  destruct (get_prop data "targetSocketId") as [err|target] eqn:Ht.
  { assert (err = TypeError) as -> by (destruct data; cbn in Ht; congruence).
    rewrite relay_nullish by done. apply Forall_nil_2. }
  destruct (truthy target) eqn:Htr.
  2:{ rewrite (relay_falsy _ _ _ _ target) by done. apply Forall_nil_2. }
  assert (Hb : exists body, get_prop data (relay_field k) = inr body)
    by (destruct data; cbn in Ht |- *; try discriminate Ht; by eexists).
  destruct Hb as [body Hb].
  rewrite (relay_truthy _ _ _ _ target body) by done. cbn.
  apply Forall_fmap, Forall_forall. intros m _. cbn. split; [done|]. by exists body.
Qed.

(** X10.  While the store does not answer: a join is answered with the
    internal error, to the joiner alone, and changes nothing; a disconnect
    takes the socket out of the transport and sends nothing, neither
    [room-closed-by-sender] nor [peer-left], and the collection keeps the
    rooms of that socket and its entries in receiver lists; a [create-room]
    is answered with an error and stores nothing. *)
Theorem store_outage_is_contained (w : World) (sock : string) (sid : JsValue) (now : N)
    (payload : JsValue) :
  mongoUp w = false ->
  step w (JoinRoom sock sid) =
    Running w [mkDelivery sock "join-room-error" [JStr "An internal server error occurred."]] /\
  step w (Disconnect sock) = Running (leave_all sock w) [] /\
  collection (leave_all sock w) = collection w /\
  exists w' msg,
    step w (CreateRoom sock now payload) = Running w' [create_error sock msg] /\
    collection w' = collection w /\ rooms w' = rooms w.
Proof.
  intros Hup. split; [cbn; by apply join_room_store_down|].
  split; [cbn; by apply disconnect_store_down|]. split; [done|].
  destruct (create_room_cases castString castNumber castElement w sock now payload)
    as [(d & _ & _ & Hup' & _)|(w' & msg & Hrun & Hc & Hr & _)]; [congruence|].
  by exists w', msg.
Qed.

(** X12.  As long as every join came with a string as payload, the room
    named by the id of a connected socket holds that socket and no other,
    provided the id is not six symbols long as the share ids are: such joins
    put sockets into the channels of share ids only. *)
Theorem connected_socket_is_alone_in_its_room (up : bool) (pool : nat -> N)
    (es : list Event) (t : string) :
  Forall (λ e, joins_by_id e = true) es ->
  t ∈ connected (world_of (run (initial up pool) es)) ->
  String.length t <> 6 ->
  members (world_of (run (initial up pool) es)) t = [t].
Proof.
  intros Hes Hin Hlen. apply own_room_is_singleton; [| |done..].
  - apply wf_run, wf_initial.
  - by apply channels_ok_run; [|apply channels_ok_initial].
Qed.

(** X13.  The runtime validation of [create-room] lets non-empty arrays
    through and nothing else: [undefined], [null], booleans, numbers, strings,
    objects and the empty array are answered with "Invalid file metadata
    provided." and change nothing, and a non-empty array never gets that
    answer. *)
Theorem create_lets_nonempty_arrays_through_only (w : World) (sock : string) (now : N)
    (payload : JsValue) :
  step w (CreateRoom sock now payload) =
    Running w [create_error sock "Invalid file metadata provided."]
  <-> ~ exists x items, payload = JArr (x :: items).
Proof.
  split.
  - intros Hstep (x & items & ->). cbn in Hstep.
    assert (Hi : invalid_payload (JArr (x :: items)) = false) by done.
    destruct (new_ShareRoom castString castNumber castElement (drawn_shareId w) sock (drawn_deletionKey w)
                (JArr (x :: items)) now) as [d|] eqn:Hn.
    2:{ rewrite create_room_rejected in Hstep by done. discriminate Hstep. }
    destruct (mongoUp w) eqn:Hup.
    2:{ rewrite (create_room_store_down _ _ _ _ _ _ _ d) in Hstep by done. discriminate Hstep. }
    destruct (violates_unique d (collection w)) eqn:Hv.
    + rewrite (create_room_duplicate _ _ _ _ _ _ _ d) in Hstep by done. discriminate Hstep.
    + rewrite (create_room_created _ _ _ _ _ _ _ d) in Hstep by done. discriminate Hstep.
  - intros Hno. cbn. apply create_room_invalid.
    destruct payload as [| |b|q|s|items|fields]; try done.
    + by destruct b.
    + unfold invalid_payload. cbn. by rewrite orb_true_r.
    + unfold invalid_payload. cbn. by rewrite orb_true_r.
    + destruct items as [|x items]; [done|]. exfalso. apply Hno. by exists x, items.
Qed.

End Edges.

(** ** Joins whose payload is an array *)

Lemma key_members_joined_key (sock : string) (k k' : RoomKey) (w : World) :
  key_members (joined_key sock k w) k' =
  if decide (k = k') then set_add sock (key_members w k) else key_members w k'.
Proof.
  unfold key_members at 1. unfold joined_key. cbn. rewrite lookup_insert.
  case_decide as He; [by subst|done].
Qed.

Lemma joined_all_keeps (sock x : string) (v : JsValue) (k : RoomKey) (w : World) :
  x ∈ key_members w k -> x ∈ key_members (joined_all sock v w) k.
Proof.
  unfold joined_all. generalize (room_list v). intros keys. revert w.
  induction keys as [|key keys IH]; intros w Hx; [done|]. cbn.
  destruct (room_key key) as [k0|]; apply IH; [|done].
  rewrite key_members_joined_key. case_decide as He; [|done].
  subst. apply elem_of_set_add. by right.
Qed.

Lemma joined_all_enters (sock : string) (keys : list JsValue) (key : JsValue) (k : RoomKey)
    (w : World) :
  key ∈ keys -> room_key key = Some k ->
  sock ∈ key_members (joined_all sock (JArr keys) w) k.
Proof.
  unfold joined_all. cbn [room_list]. revert w.
  induction keys as [|key0 keys IH]; intros w Hin Hk; [by apply elem_of_nil in Hin|].
  cbn. apply elem_of_cons in Hin as [<-|Hin].
  - rewrite Hk.
    apply (joined_all_keeps sock sock (JArr keys) k (joined_key sock k w)).
    rewrite key_members_joined_key, decide_True by done.
    apply elem_of_set_add. by left.
  - by apply IH.
Qed.

Section ArrayJoin.

Variable castString : JsValue -> option string.
Variable castNumber : JsValue -> option Q.
Variable castElement : JsValue -> option (option FileMetadata).
Variable castFilter : JsValue -> option (string -> bool).

Local Abbreviation step := (step castString castNumber castElement castFilter).

(** X15.  The handler hands the payload of [join-room] to [socket.join]
    unchecked.  When the payload is an array and the filter it is read as
    selects a waiting room, the joiner is put into every room that the array
    names by a string, the room named by the id of another socket included;
    no socket leaves a room; and a relay addressed to such a room reaches the
    joiner too from then on. *)
Theorem array_join_enters_every_listed_room (w : World) (sock : string)
    (keys : list JsValue) (selected : string -> bool) (r : ShareRoom) :
  mongoUp w = true ->
  castFilter (JArr keys) = Some selected ->
  List.find (open_matching selected) (collection w) = Some r ->
  exists w' out,
    step w (JoinRoom sock (JArr keys)) = Running w' out /\
    (forall t, JStr t ∈ keys -> sock ∈ members w' t) /\
    (forall t x, x ∈ members w t -> x ∈ members w' t) /\
    (forall t k sender body, JStr t ∈ keys -> t <> "" ->
       forwarded k sender body sock ∈
         deliveries_of (step w' (relay_event k sender
           (JObj [("targetSocketId", JStr t); (relay_field k, body)])))).
Proof.
  intros Hup Hc Hf. eexists _, _. split.
  { cbn. by apply (join_room_match castFilter w sock (JArr keys) selected r). }
  assert (Hin : forall t, JStr t ∈ keys ->
            sock ∈ members (set_collection
                     (update_first (matching selected) (push_receiver sock) (collection w))
                     (joined_all sock (JArr keys) w)) t).
  { intros t Ht. by apply (joined_all_enters sock keys (JStr t) (KStr t) w). }
  split; [exact Hin|]. split.
  { intros t x Hx. by apply (joined_all_keeps sock x (JArr keys) (KStr t) w). }
  intros t k sender body Ht Hne. rewrite step_relay.
  rewrite (relay_truthy _ _ _ _ (JStr t) body).
  - cbn [deliveries_of]. apply list_elem_of_fmap. exists sock. split; [done|].
    by apply Hin.
  - done.
  - by destruct k.
  - cbn. by destruct (String.eqb_spec t "").
Qed.

End ArrayJoin.

(** X11.  The start of the process: the HTTP server listens only after
    [mongoose.connect] has succeeded, on [PORT] or on 3000 when [PORT] is not
    set or empty.  When [MONGODB_URI] is not set or empty the process exits
    with code 1 without trying to connect; when the connection fails it exits
    with code 1; no other exit code is used. *)
Theorem server_listens_only_with_database (env : Env) (connects : string -> bool) :
  (forall on, HttpListen on ∈ main env connects <->
     on = port env /\
     exists uri, MONGODB_URI env = Some uri /\ uri <> "" /\ connects uri = true) /\
  (forall uri, MongooseConnect uri ∈ main env connects <->
     MONGODB_URI env = Some uri /\ uri <> "") /\
  (forall code, ProcessExit code ∈ main env connects <->
     code = 1%Z /\ ~ exists on, HttpListen on ∈ main env connects) /\
  (port env = inr 3000%Z <-> PORT env = None \/ PORT env = Some "").
Proof.
  assert (Hport : port env = inr 3000%Z <-> PORT env = None \/ PORT env = Some "").
  { unfold port. destruct (PORT env) as [[|c p]|]; cbn; naive_solver. }
  split; [|split; [|split; [|exact Hport]]].
  all: unfold main, connectDB; destruct (MONGODB_URI env) as [uri|] eqn:Hu;
    [destruct uri as [|c uri]; cbn [nonempty String.eqb negb];
       [|destruct (connects (String c uri)) eqn:Hc]|]; cbn [fst snd app].
  all: intros x; try (clear Hport; set_solver).
  split; [clear Hport; set_solver|].
  intros (_ & u & [= <-] & _ & Hcu). congruence.
Qed.

(** ** The further properties at concrete states *)

Lemma reached_shared_world :
  reached castString_typed castNumber_typed castElement_typed castFilter_typed counting_pool shared_events = shared_world.
Proof. vm_compute. reflexivity. Qed.

(** X2 at [shared_world]: [C] can join the room of [A]. *)
Lemma shared_room_is_joinable :
  shared_room ∈ collection (reached castString_typed castNumber_typed castElement_typed castFilter_typed counting_pool shared_events) /\
  isWaiting shared_room = true /\
  exists w' others,
    typed_step (reached castString_typed castNumber_typed castElement_typed castFilter_typed counting_pool shared_events)
      (JoinRoom "C" (JStr (shareId shared_room))) =
    Running w' (join_success "C" shared_room others :: (new_peer_joined "C" <$> others)).
Proof.
  assert (Hin : shared_room ∈ collection
            (reached castString_typed castNumber_typed castElement_typed castFilter_typed counting_pool shared_events)).
  { rewrite reached_shared_world, shared_world_collection. apply list_elem_of_here. }
  split; [exact Hin|].
  apply (existing_rooms_stay_joinable castString_typed castNumber_typed castElement_typed castFilter_typed counting_pool
           shared_events shared_room "C" Hin).
Defined.

(** X3 at [shared_world]: after the join of [C] the room is still the room
    of [A]. *)
Lemma join_keeps_the_room_of_its_sender :
  push_receiver "C" shared_room
    ∈ collection (world_of (typed_step shared_world (JoinRoom "C" (JStr "useand")))) /\
  exists d, d ∈ collection shared_world /\ same_room d (push_receiver "C" shared_room).
Proof.
  assert (Hin : push_receiver "C" shared_room
                  ∈ collection (world_of (typed_step shared_world (JoinRoom "C" (JStr "useand"))))).
  { assert (Hc : collection (world_of (typed_step shared_world (JoinRoom "C" (JStr "useand"))))
                 = [push_receiver "C" shared_room]) by (vm_compute; reflexivity).
    rewrite Hc. apply list_elem_of_here. }
  split; [exact Hin|].
  destruct (event_changes_receivers_only castString_typed castNumber_typed castElement_typed castFilter_typed shared_world
              (JoinRoom "C" (JStr "useand")) (push_receiver "C" shared_room) Hin)
    as [(d & Hd & Hsame & _)|(? & ? & ? & He & _)]; [|discriminate He].
  by exists d.
Defined.

(** X4 at [shared_world]: [C] joins the room of [A] and [B]. *)
Lemma join_of_C_at_shared_world :
  mongoUp shared_world = true /\ wf shared_world /\
  List.find (open_room "useand") (collection shared_world) = Some shared_room /\
  exists w',
    typed_step shared_world (JoinRoom "C" (JStr "useand")) =
    Running w' [join_success "C" shared_room ["A"; "B"];
                new_peer_joined "C" "A"; new_peer_joined "C" "B"].
Proof.
  assert (Hf : List.find (open_room "useand") (collection shared_world) = Some shared_room)
    by (rewrite shared_world_collection; reflexivity).
  split; [apply shared_world_up|]. split; [apply shared_world_wf|]. split; [exact Hf|].
  destruct (join_tells_joiner_and_peers castString_typed castNumber_typed castElement_typed castFilter_typed shared_world
              "C" "useand" shared_room shared_world_up shared_world_wf Hf)
    as (w' & Hstep & _).
  exists w'. rewrite Hstep. vm_compute. reflexivity.
Defined.

(** X5 at [shared_world]: [C] joins and leaves. *)
Lemma join_then_disconnect_of_C :
  mongoUp shared_world = true /\ wf shared_world /\
  List.find (open_room "useand") (collection shared_world) = Some shared_room /\
  List.find (sent_by "C") (collection shared_world) = None /\
  (forall d, d ∈ collection shared_world -> "C" ∉ receiverSocketIds d) /\
  exists w1 out1 w2 out2,
    typed_step shared_world (JoinRoom "C" (JStr "useand")) = Running w1 out1 /\
    typed_step w1 (Disconnect "C") = Running w2 out2 /\
    collection w2 = [shared_room].
Proof.
  assert (Hf : List.find (open_room "useand") (collection shared_world) = Some shared_room)
    by (rewrite shared_world_collection; reflexivity).
  assert (Hs : List.find (sent_by "C") (collection shared_world) = None)
    by (rewrite shared_world_collection; reflexivity).
  assert (Hno : forall d, d ∈ collection shared_world -> "C" ∉ receiverSocketIds d).
  { rewrite shared_world_collection. intros d ->%list_elem_of_singleton. compute_done. }
  split; [apply shared_world_up|]. split; [apply shared_world_wf|]. split; [exact Hf|].
  split; [exact Hs|]. split; [exact Hno|].
  destruct (join_then_disconnect_restores_collection castString_typed castNumber_typed castElement_typed castFilter_typed
              shared_world "C" "useand" shared_room shared_world_up shared_world_wf Hf Hs Hno)
    as (w1 & out1 & w2 & out2 & H1 & H2 & Hc & _).
  exists w1, out1, w2, out2. split; [exact H1|]. split; [exact H2|].
  rewrite Hc. apply shared_world_collection.
Defined.

(** X7 at [fresh_world]: [A] creates a room and [B] joins it. *)
Lemma first_room_is_joined_by_B :
  typed_step fresh_world (CreateRoom "A" 0 (JArr [sample_file]))
    = Running first_room_world [room_created "A" "useand" "om-26T1983"] /\
  exists w2 d peers,
    typed_step first_room_world (JoinRoom "B" (JStr "useand")) =
      Running w2 (join_success "B" d peers :: (new_peer_joined "B" <$> peers)) /\
    senderSocketId d = "A" /\ "A" ∈ peers.
Proof.
  assert (Hstep : typed_step fresh_world (CreateRoom "A" 0 (JArr [sample_file]))
                  = Running first_room_world [room_created "A" "useand" "om-26T1983"])
    by (vm_compute; reflexivity).
  split; [exact Hstep|].
  destruct (created_room_can_be_joined castString_typed castNumber_typed castElement_typed castFilter_typed
              fresh_world first_room_world "A" "B" "useand" "om-26T1983" 0
              (JArr [sample_file]) Hstep)
    as (w2 & d & peers & Hjoin & _ & Hsnd & _ & Hpeer & _).
  exists w2, d, peers. split; [exact Hjoin|]. split; [exact Hsnd|].
  apply Hpeer. discriminate.
Defined.

(** X8 at [shared_world]: an answer without payload. *)
Lemma answer_without_payload_at_shared_world :
  typed_step shared_world (WebrtcAnswer "C" JUndefined) = Crashed TypeError shared_world [] /\
  exists k sock data,
    WebrtcAnswer "C" JUndefined = relay_event k sock data /\
    (data = JUndefined \/ data = JNull).
Proof.
  assert (Hstep : typed_step shared_world (WebrtcAnswer "C" JUndefined)
                  = Crashed TypeError shared_world []) by reflexivity.
  split; [exact Hstep|].
  apply (crash_only_in_relay castString_typed castNumber_typed castElement_typed castFilter_typed shared_world shared_world
           (WebrtcAnswer "C" JUndefined) TypeError [] Hstep).
Defined.

(** X10 at [shared_world] with the store not answering: the sender [A]
    disconnects and its room stays. *)
Lemma sender_disconnect_during_outage :
  mongoUp (store_outage shared_world) = false /\
  typed_step (store_outage shared_world) (Disconnect "A")
    = Running (leave_all "A" (store_outage shared_world)) [] /\
  collection (leave_all "A" (store_outage shared_world)) = [shared_room].
Proof.
  split; [reflexivity|].
  destruct (store_outage_is_contained castString_typed castNumber_typed castElement_typed castFilter_typed
              (store_outage shared_world) "A" (JStr "useand") 0 (JArr [sample_file]) eq_refl)
    as (_ & Hdisc & Hc & _).
  split; [exact Hdisc|]. rewrite Hc. apply shared_world_collection.
Defined.

(** X12 at [shared_world]: the room of [B]. *)
Lemma room_of_B_at_shared_world :
  Forall (λ e, joins_by_id e = true) shared_events /\
  "B" ∈ connected (world_of (typed_run (initial true counting_pool) shared_events)) /\
  String.length "B" <> 6 /\
  members (world_of (typed_run (initial true counting_pool) shared_events)) "B" = ["B"].
Proof.
  assert (Hes : Forall (λ e, joins_by_id e = true) shared_events)
    by (repeat (apply Forall_cons; split; [reflexivity|]); apply Forall_nil_2).
  assert (Hin : "B" ∈ connected (world_of (typed_run (initial true counting_pool) shared_events)))
    by compute_done.
  assert (Hlen : String.length "B" <> 6) by discriminate.
  split; [exact Hes|]. split; [exact Hin|]. split; [exact Hlen|].
  apply (connected_socket_is_alone_in_its_room castString_typed castNumber_typed castElement_typed
           castFilter_typed true counting_pool shared_events "B" Hes Hin Hlen).
Defined.

(** X15 at [shared_world]: [C] joins with the array that names the room of
    [A] and the socket [B]; an offer that [A] then sends to [B] reaches [C]
    as well. *)
Lemma join_of_C_with_room_and_B :
  mongoUp shared_world = true /\
  exists w',
    typed_step shared_world (JoinRoom "C" room_and_B) =
      Running w' [join_success "C" shared_room ["A"; "B"];
                  new_peer_joined "C" "A"; new_peer_joined "C" "B"] /\
    "C" ∈ members w' "B" /\
    typed_step w' (WebrtcOffer "A" offer_for_B) =
      Running w' [forwarded Offer "A" (JStr "sdp") "B"; forwarded Offer "A" (JStr "sdp") "C"].
Proof.
  split; [apply shared_world_up|].
  destruct (array_join_enters_every_listed_room castString_typed castNumber_typed
              castElement_typed castFilter_typed shared_world "C"
              [JStr "useand"; JStr "B"]
              (fun id => existsb (fun item => match item with
                                              | JStr s => String.eqb id s
                                              | _ => false
                                              end) [JStr "useand"; JStr "B"])
              shared_room shared_world_up eq_refl)
    as (w' & out & Hstep & Hin & _).
  { rewrite shared_world_collection. reflexivity. }
  assert (Hw' : w' = world_of (typed_step shared_world (JoinRoom "C" room_and_B)))
    by (unfold room_and_B; rewrite Hstep; reflexivity).
  assert (Hout : out = deliveries_of (typed_step shared_world (JoinRoom "C" room_and_B)))
    by (unfold room_and_B; rewrite Hstep; reflexivity).
  exists w'. split; [|split].
  - unfold room_and_B. rewrite Hstep. apply (f_equal (Running w')).
    rewrite Hout. vm_compute. reflexivity.
  - apply Hin. apply list_elem_of_further, list_elem_of_here.
  - rewrite Hw'. vm_compute. reflexivity.
Defined.
